(** * WalletGreen: the in-memory state engine of the multi-address wallet

    A shallow embedding of [src/wallet/WalletGreen.cpp].  The wallet object is
    a record of its member variables; every member function is a function
    over that record.  Functions that can throw live in a small state and
    exception monad whose state survives a throw, as the members of a C++
    object do.  Everything [WalletGreen.cpp] merely calls (the currency, the
    node, the synchronizer and its transfers containers, the transaction
    builder, the random engine) is collected in one record of the
    environment, [Env], which each operation receives as an argument. *)

From stdpp Require Import base option list gmap strings numbers sorting.
From Stdlib Require Import ZArith Lia.

Local Open Scope Z_scope.

(** ** Machine integers

    [uint64_t], [uint32_t] and [int64_t] are modelled as [Z] with the
    wrap-around written where the C++ arithmetic wraps. *)

Definition wrap64 (z : Z) : Z := z mod 2 ^ 64.
Definition add64 (a b : Z) : Z := wrap64 (a + b).
Definition sub64 (a b : Z) : Z := wrap64 (a - b).
Definition wrap32 (z : Z) : Z := z mod 2 ^ 32.
Definition add32 (a b : Z) : Z := wrap32 (a + b).

(** [static_cast<int64_t>] of a 64-bit pattern. *)
Definition to_int64 (z : Z) : Z := (z + 2 ^ 63) mod 2 ^ 64 - 2 ^ 63.

(** Unary minus on [int64_t]. *)
Definition neg64 (z : Z) : Z := to_int64 (- z).

(** The sum of a list of [uint64_t] values accumulated in a [uint64_t],
    the loop [for (x : l) acc += x]. *)
Definition sum64 (l : list Z) : Z := fold_left add64 l 0.

(** The same sum without wrap-around. *)
Definition sumZ (l : list Z) : Z := foldr Z.add 0 l.

(** ** Plain data *)

(** Hashes, keys and pointers are opaque values compared for equality only. *)
Abbreviation Hash := N (only parsing).
Abbreviation PublicKey := N (only parsing).
Abbreviation SecretKey := N (only parsing).
(** [ITransfersContainer*]: the handle of a synchronizer-owned container. *)
Abbreviation Container := N (only parsing).
(** [WalletRecord*]: the address of a node of [m_walletsContainer]. *)
Abbreviation WalletPtr := N (only parsing).
Abbreviation BinaryArray := (list N) (only parsing).

Module error.
Inductive t : Type :=
  | NOT_INITIALIZED
  | ALREADY_INITIALIZED
  | WRONG_STATE
  | WRONG_PASSWORD
  | BAD_ADDRESS
  | ZERO_DESTINATION
  | SUM_OVERFLOW
  | WRONG_AMOUNT
  | MIXIN_COUNT_TOO_BIG
  | TRANSACTION_SIZE_TOO_BIG
  | INTERNAL_WALLET_ERROR
  | OPERATION_CANCELLED
  (** [std::errc::invalid_argument] *)
  | INVALID_ARGUMENT
  (** a [std::error_code] handed back by the node *)
  | NODE_ERROR (code : Z)
  (** an exception of the transaction builder *)
  | BUILDER_ERROR (code : Z)
  (** a failed [assert], or a step C++ leaves undefined *)
  | ASSERTION_FAILED
  (** [getEvent] on an empty queue: the caller stays suspended *)
  | WOULD_BLOCK.

#[global] Instance eq_dec : EqDecision t.
Proof. solve_decision. Defined.
End error.

Module WalletState.
Inductive t : Type := NOT_INITIALIZED | INITIALIZED.

#[global] Instance eq_dec : EqDecision t.
Proof. solve_decision. Defined.
End WalletState.

Module WalletTransactionState.
Inductive t : Type := SUCCEEDED | FAILED | CANCELLED.

#[global] Instance eq_dec : EqDecision t.
Proof. solve_decision. Defined.
End WalletTransactionState.

Inductive WalletEvent : Type :=
  | TRANSACTION_CREATED (transactionIndex : nat)
  | TRANSACTION_UPDATED (transactionIndex : nat)
  | BALANCE_UNLOCKED.

Inductive BalanceFilter : Type :=
  | IncludeKeyUnlocked
  | IncludeAllUnlocked
  | IncludeAllLocked.

Record AccountPublicAddress : Type := mkAccountPublicAddress {
  spendPublicKey_of : PublicKey;
  viewPublicKey_of : PublicKey
}.

Record KeyPair : Type := mkKeyPair {
  publicKey : PublicKey;
  secretKey : SecretKey
}.

(** [WalletTransfer]: [amount] is an [int64_t]. *)
Record WalletTransfer : Type := mkWalletTransfer {
  address : string;
  amount : Z
}.

Record WalletTransaction : Type := mkWalletTransaction {
  state : WalletTransactionState.t;
  timestamp : Z;
  blockHeight : Z;
  hash : Hash;
  totalAmount : Z;
  fee : Z;
  creationTime : Z;
  unlockTime : Z;
  extra : string
}.

(** A node of [m_walletsContainer].  [self] is the node's address, the value
    of the source's address-of-iterator expression and of every [WalletRecord*] that points at it. *)
Record WalletRecord : Type := mkWalletRecord {
  self : WalletPtr;
  spendPublicKey : PublicKey;
  spendSecretKey : SecretKey;
  container : Container;
  pendingBalance : Z;
  actualBalance : Z;
  creationTimestamp : Z
}.

Record SpentOutput : Type := mkSpentOutput {
  so_amount : Z;
  so_transactionHash : Hash;
  so_outputInTransaction : Z;
  so_wallet : WalletPtr;
  spendingTransactionHash : Hash
}.

Record UnlockTransactionJob : Type := mkUnlockTransactionJob {
  job_blockHeight : Z;
  job_container : Container;
  job_transactionHash : Hash
}.

Record TransactionOutputInformation : Type := mkTransactionOutputInformation {
  out_amount : Z;
  globalOutputIndex : Z;
  outputInTransaction : Z;
  out_transactionHash : Hash;
  transactionPublicKey : PublicKey;
  outputKey : PublicKey
}.

Record TransactionInformation : Type := mkTransactionInformation {
  info_transactionHash : Hash;
  info_blockHeight : Z;
  info_timestamp : Z;
  info_unlockTime : Z;
  totalAmountIn : Z;
  totalAmountOut : Z;
  info_extra : string
}.

Record AccountSubscription : Type := mkAccountSubscription {
  sub_address : AccountPublicAddress;
  sub_viewSecretKey : SecretKey;
  sub_spendSecretKey : SecretKey;
  transactionSpendableAge : Z;
  syncStart_height : Z;
  syncStart_timestamp : Z
}.

(** [WalletGreen::WalletOuts] and [WalletGreen::OutputToTransfer]. *)
Record WalletOuts : Type := mkWalletOuts {
  wallet : WalletPtr;
  outs : list TransactionOutputInformation
}.

Record OutputToTransfer : Type := mkOutputToTransfer {
  out : TransactionOutputInformation;
  ott_wallet : WalletPtr
}.

(** [COMMAND_RPC_GET_RANDOM_OUTPUTS_FOR_AMOUNTS::outs_for_amount]. *)
Record out_entry : Type := mkOutEntry {
  global_amount_index : Z;
  out_key : PublicKey
}.

Record outs_for_amount : Type := mkOutsForAmount {
  ofa_amount : Z;
  ofa_outs : list out_entry
}.

(** What the wallet reads off a finished [ITransaction]. *)
Record ITransaction : Type := mkITransaction {
  getTransactionHash : Hash;
  getExtra : string;
  getTransactionData : BinaryArray
}.

#[global] Instance WalletEvent_eq_dec : EqDecision WalletEvent.
Proof. solve_decision. Defined.
#[global] Instance WalletRecord_eq_dec : EqDecision WalletRecord.
Proof. solve_decision. Defined.
#[global] Instance UnlockTransactionJob_eq_dec : EqDecision UnlockTransactionJob.
Proof. solve_decision. Defined.

Inductive result (A : Type) : Type :=
  | Ok (a : A)
  | Throw (e : error.t).
Arguments Ok {A} a.
Arguments Throw {A} e.

(** ** The environment

    One field per function or constant that [WalletGreen.cpp] uses and does
    not define.  Values of type [uint64_t] coming back from it are read
    through [wrap64]. *)
Record Env : Type := mkEnv {
  (** [Currency::maxTransactionSizeLimit], [Currency::parseAccountAddressString],
      [Currency::accountAddressAsString] *)
  currency_maxTransactionSizeLimit : Z;
  currency_parseAccountAddressString : string -> option AccountPublicAddress;
  currency_accountAddressAsString : AccountPublicAddress -> string;
  (** [time(nullptr)] and [Crypto::generate_keys] at the moment of the call *)
  std_time : Z;
  crypto_generate_keys : KeyPair;
  (** the successive values drawn from the [std::default_random_engine] that
      [selectTransfers] seeds with [Crypto::rand]; the [k]-th use of a
      [uniform_int_distribution] over [0 .. n-1] yields [crypto_rand k mod n] *)
  crypto_rand : nat -> nat;
  (** [m_synchronizer.addSubscription(sub).getContainer()] *)
  sync_addSubscription : AccountSubscription -> Container;
  (** [ITransfersContainer::balance], [getOutputs] with [IncludeKeyUnlocked],
      [getTransactionInformation] *)
  container_balance : Container -> BalanceFilter -> Z;
  container_getOutputs : Container -> list TransactionOutputInformation;
  container_getTransactionInformation :
    Container -> Hash -> option (TransactionInformation * Z);
  (** [INode::relayTransaction] and [INode::getRandomOutsByAmounts]: the
      error code handed to the completion callback, [None] for success *)
  node_relayTransaction : BinaryArray -> option Z;
  node_getRandomOutsByAmounts :
    list Z -> Z -> list outs_for_amount * option Z;
  (** [fromBinaryArray(oldTxFormat, ba)] *)
  fromBinaryArray : BinaryArray -> bool;
  (** [prepareInputs], the amount decomposition of [splitDestinations] and
      [makeTransaction] (lines 560-570): they touch no member variable and
      hand everything to the transaction builder; their outcome is the
      signed transaction, or the code of the exception that the builder
      throws *)
  builder_makeTransaction :
    list OutputToTransfer -> list outs_for_amount -> Z ->
    list WalletTransfer -> WalletTransfer -> string -> Z -> Z + ITransaction;
  (** [CryptoNote::WALLET_UNCONFIRMED_TRANSACTION_HEIGHT], declared in
      [IWallet.h] *)
  WALLET_UNCONFIRMED_TRANSACTION_HEIGHT : Z
}.

(** ** The wallet object *)

Record WalletGreen : Type := mkWalletGreen {
  m_state : WalletState.t;
  m_stopped : bool;
  m_password : string;
  m_viewPublicKey : PublicKey;
  m_viewSecretKey : SecretKey;
  (** random-access order; unique by [spendPublicKey] and by [container] *)
  m_walletsContainer : list WalletRecord;
  (** unique by ([so_transactionHash], [so_outputInTransaction]) *)
  m_spentOutputs : list SpentOutput;
  (** in the order of [BlockHeightIndex]; unique by [job_transactionHash] *)
  m_unlockTransactionsJob : list UnlockTransactionJob;
  (** random-access order; unique by [hash] *)
  m_transactions : list WalletTransaction;
  m_transfers : list (nat * WalletTransfer);
  m_change : gmap N Z;
  m_actualBalance : Z;
  m_pendingBalance : Z;
  m_events : list WalletEvent;
  m_upperTransactionSizeLimit : Z;
  (** [INode& m_node]: the transactions handed to [relayTransaction] so far *)
  m_node : list BinaryArray;
  (** the address the next node of [m_walletsContainer] is allocated at *)
  m_heap : WalletPtr
}.

(** Assignments to single member variables. *)
Definition set_state (v : WalletState.t) (s : WalletGreen) : WalletGreen :=
  mkWalletGreen v (m_stopped s) (m_password s) (m_viewPublicKey s) (m_viewSecretKey s)
    (m_walletsContainer s) (m_spentOutputs s) (m_unlockTransactionsJob s) (m_transactions s)
    (m_transfers s) (m_change s) (m_actualBalance s) (m_pendingBalance s) (m_events s)
    (m_upperTransactionSizeLimit s) (m_node s) (m_heap s).
Definition set_stopped (v : bool) (s : WalletGreen) : WalletGreen :=
  mkWalletGreen (m_state s) v (m_password s) (m_viewPublicKey s) (m_viewSecretKey s)
    (m_walletsContainer s) (m_spentOutputs s) (m_unlockTransactionsJob s) (m_transactions s)
    (m_transfers s) (m_change s) (m_actualBalance s) (m_pendingBalance s) (m_events s)
    (m_upperTransactionSizeLimit s) (m_node s) (m_heap s).
Definition set_password (v : string) (s : WalletGreen) : WalletGreen :=
  mkWalletGreen (m_state s) (m_stopped s) v (m_viewPublicKey s) (m_viewSecretKey s)
    (m_walletsContainer s) (m_spentOutputs s) (m_unlockTransactionsJob s) (m_transactions s)
    (m_transfers s) (m_change s) (m_actualBalance s) (m_pendingBalance s) (m_events s)
    (m_upperTransactionSizeLimit s) (m_node s) (m_heap s).
Definition set_viewKeys (v : KeyPair) (s : WalletGreen) : WalletGreen :=
  mkWalletGreen (m_state s) (m_stopped s) (m_password s) (publicKey v) (secretKey v)
    (m_walletsContainer s) (m_spentOutputs s) (m_unlockTransactionsJob s) (m_transactions s)
    (m_transfers s) (m_change s) (m_actualBalance s) (m_pendingBalance s) (m_events s)
    (m_upperTransactionSizeLimit s) (m_node s) (m_heap s).
Definition set_walletsContainer (v : list WalletRecord) (s : WalletGreen) : WalletGreen :=
  mkWalletGreen (m_state s) (m_stopped s) (m_password s) (m_viewPublicKey s) (m_viewSecretKey s)
    v (m_spentOutputs s) (m_unlockTransactionsJob s) (m_transactions s)
    (m_transfers s) (m_change s) (m_actualBalance s) (m_pendingBalance s) (m_events s)
    (m_upperTransactionSizeLimit s) (m_node s) (m_heap s).
Definition set_spentOutputs (v : list SpentOutput) (s : WalletGreen) : WalletGreen :=
  mkWalletGreen (m_state s) (m_stopped s) (m_password s) (m_viewPublicKey s) (m_viewSecretKey s)
    (m_walletsContainer s) v (m_unlockTransactionsJob s) (m_transactions s)
    (m_transfers s) (m_change s) (m_actualBalance s) (m_pendingBalance s) (m_events s)
    (m_upperTransactionSizeLimit s) (m_node s) (m_heap s).
Definition set_unlockTransactionsJob (v : list UnlockTransactionJob) (s : WalletGreen) : WalletGreen :=
  mkWalletGreen (m_state s) (m_stopped s) (m_password s) (m_viewPublicKey s) (m_viewSecretKey s)
    (m_walletsContainer s) (m_spentOutputs s) v (m_transactions s)
    (m_transfers s) (m_change s) (m_actualBalance s) (m_pendingBalance s) (m_events s)
    (m_upperTransactionSizeLimit s) (m_node s) (m_heap s).
Definition set_transactions (v : list WalletTransaction) (s : WalletGreen) : WalletGreen :=
  mkWalletGreen (m_state s) (m_stopped s) (m_password s) (m_viewPublicKey s) (m_viewSecretKey s)
    (m_walletsContainer s) (m_spentOutputs s) (m_unlockTransactionsJob s) v
    (m_transfers s) (m_change s) (m_actualBalance s) (m_pendingBalance s) (m_events s)
    (m_upperTransactionSizeLimit s) (m_node s) (m_heap s).
Definition set_transfers (v : list (nat * WalletTransfer)) (s : WalletGreen) : WalletGreen :=
  mkWalletGreen (m_state s) (m_stopped s) (m_password s) (m_viewPublicKey s) (m_viewSecretKey s)
    (m_walletsContainer s) (m_spentOutputs s) (m_unlockTransactionsJob s) (m_transactions s)
    v (m_change s) (m_actualBalance s) (m_pendingBalance s) (m_events s)
    (m_upperTransactionSizeLimit s) (m_node s) (m_heap s).
Definition set_change (v : gmap N Z) (s : WalletGreen) : WalletGreen :=
  mkWalletGreen (m_state s) (m_stopped s) (m_password s) (m_viewPublicKey s) (m_viewSecretKey s)
    (m_walletsContainer s) (m_spentOutputs s) (m_unlockTransactionsJob s) (m_transactions s)
    (m_transfers s) v (m_actualBalance s) (m_pendingBalance s) (m_events s)
    (m_upperTransactionSizeLimit s) (m_node s) (m_heap s).
Definition set_actualBalance (v : Z) (s : WalletGreen) : WalletGreen :=
  mkWalletGreen (m_state s) (m_stopped s) (m_password s) (m_viewPublicKey s) (m_viewSecretKey s)
    (m_walletsContainer s) (m_spentOutputs s) (m_unlockTransactionsJob s) (m_transactions s)
    (m_transfers s) (m_change s) v (m_pendingBalance s) (m_events s)
    (m_upperTransactionSizeLimit s) (m_node s) (m_heap s).
Definition set_pendingBalance (v : Z) (s : WalletGreen) : WalletGreen :=
  mkWalletGreen (m_state s) (m_stopped s) (m_password s) (m_viewPublicKey s) (m_viewSecretKey s)
    (m_walletsContainer s) (m_spentOutputs s) (m_unlockTransactionsJob s) (m_transactions s)
    (m_transfers s) (m_change s) (m_actualBalance s) v (m_events s)
    (m_upperTransactionSizeLimit s) (m_node s) (m_heap s).
Definition set_events (v : list WalletEvent) (s : WalletGreen) : WalletGreen :=
  mkWalletGreen (m_state s) (m_stopped s) (m_password s) (m_viewPublicKey s) (m_viewSecretKey s)
    (m_walletsContainer s) (m_spentOutputs s) (m_unlockTransactionsJob s) (m_transactions s)
    (m_transfers s) (m_change s) (m_actualBalance s) (m_pendingBalance s) v
    (m_upperTransactionSizeLimit s) (m_node s) (m_heap s).
Definition set_node (v : list BinaryArray) (s : WalletGreen) : WalletGreen :=
  mkWalletGreen (m_state s) (m_stopped s) (m_password s) (m_viewPublicKey s) (m_viewSecretKey s)
    (m_walletsContainer s) (m_spentOutputs s) (m_unlockTransactionsJob s) (m_transactions s)
    (m_transfers s) (m_change s) (m_actualBalance s) (m_pendingBalance s) (m_events s)
    (m_upperTransactionSizeLimit s) v (m_heap s).
Definition set_heap (v : WalletPtr) (s : WalletGreen) : WalletGreen :=
  mkWalletGreen (m_state s) (m_stopped s) (m_password s) (m_viewPublicKey s) (m_viewSecretKey s)
    (m_walletsContainer s) (m_spentOutputs s) (m_unlockTransactionsJob s) (m_transactions s)
    (m_transfers s) (m_change s) (m_actualBalance s) (m_pendingBalance s) (m_events s)
    (m_upperTransactionSizeLimit s) (m_node s) v.

(** ** Member functions that may throw

    [M A] is a computation over the wallet object that returns an [A] or
    throws; the object keeps whatever was written before the throw. *)
Definition M (A : Type) : Type := WalletGreen -> result A * WalletGreen.

#[global] Instance M_ret : MRet M := fun A a s => (Ok a, s).
#[global] Instance M_bind : MBind M := fun A B f m s =>
  match m s with
  | (Ok a, s') => f a s'
  | (Throw e, s') => (Throw e, s')
  end.

Definition throw {A : Type} (e : error.t) : M A := fun s => (Throw e, s).
Definition gets {A : Type} (f : WalletGreen -> A) : M A := fun s => (Ok (f s), s).
Definition modify (f : WalletGreen -> WalletGreen) : M unit := fun s => (Ok tt, f s).
(** [if (cond) throw e;] *)
Definition throw_if (cond : bool) (e : error.t) : M unit :=
  if cond then throw e else mret tt.
(** A pure computation that may throw, run inside a member function. *)
Definition lift {A : Type} (r : result A) : M A := fun s => (r, s).
(** A [const] member function that may throw. *)
Definition reads {A : Type} (f : WalletGreen -> result A) : M A := fun s => (f s, s).
(** [try { body } catch (std::exception&) { handler; throw; }] *)
Definition try_catch_rethrow {A : Type} (body : M A) (handler : M unit) : M A := fun s =>
  match body s with
  | (Ok a, s') => (Ok a, s')
  | (Throw e, s') =>
      match handler s' with
      | (Ok _, s'') => (Throw e, s'')
      | (Throw e', s'') => (Throw e', s'')
      end
  end.

(** ** The multi-index containers

    The index declarations are in [WalletIndices.h], which is not among the
    sources; the lists below follow the data model of the specification.

    Modelled from the spec: the registry is "indexed four ways
    simultaneously", with a "unique lookup" by spend public key and by
    transfers-container handle; transactions are indexed "by transaction
    hash (unique)"; spent outputs "by (source-tx-hash, output-index)
    unique, by owning-wallet (range), and by spending-tx-hash (range)";
    unlock jobs "by block height (range) and by transaction hash (unique)".
    An insertion that would break a unique index is refused and leaves the
    container as it was, which is how such an index behaves. *)

(** [m_walletsContainer.get<KeysIndex>().find(key)], with the position of the
    node in the random-access index. *)
Definition find_wallet_by_key (key : PublicKey) (ws : list WalletRecord)
    : option (nat * WalletRecord) :=
  list_find (fun w => spendPublicKey w = key) ws.

(** [m_walletsContainer.get<TransfersContainerIndex>().find(container)]. *)
Definition find_wallet_by_container (c : Container) (ws : list WalletRecord)
    : option (nat * WalletRecord) :=
  list_find (fun w => container w = c) ws.

(** Dereferencing a [WalletRecord*]. *)
Definition deref_wallet (p : WalletPtr) (ws : list WalletRecord)
    : option (nat * WalletRecord) :=
  list_find (fun w => self w = p) ws.

Definition wallets_push_back (w : WalletRecord) (ws : list WalletRecord)
    : list WalletRecord :=
  if decide (Exists (fun x => spendPublicKey x = spendPublicKey w \/
                              container x = container w) ws)
  then ws else ws ++ [w].

(** [m_transactions.get<TransactionIndex>().find(hash)], projected to the
    random-access index. *)
Definition find_transaction (h : Hash) (txs : list WalletTransaction)
    : option (nat * WalletTransaction) :=
  list_find (fun tx => hash tx = h) txs.

Definition transactions_push_back (tx : WalletTransaction)
    (txs : list WalletTransaction) : list WalletTransaction :=
  if decide (Exists (fun x => hash x = hash tx) txs) then txs else txs ++ [tx].

Definition spentOutputs_insert (o : SpentOutput) (sp : list SpentOutput)
    : list SpentOutput :=
  if decide (Exists (fun x => so_transactionHash x = so_transactionHash o /\
                              so_outputInTransaction x = so_outputInTransaction o) sp)
  then sp else sp ++ [o].

(** [index.upper_bound(height)] on the block-height index: the number of
    jobs before the first one whose height is greater than [height]. *)
Fixpoint jobs_upper_bound (height : Z) (jobs : list UnlockTransactionJob) : nat :=
  match jobs with
  | [] => O
  | j :: rest =>
      if decide (job_blockHeight j <= height) then S (jobs_upper_bound height rest) else O
  end.

Definition jobs_insert (j : UnlockTransactionJob) (jobs : list UnlockTransactionJob)
    : list UnlockTransactionJob :=
  if decide (Exists (fun x => job_transactionHash x = job_transactionHash j) jobs)
  then jobs
  else
    let n := jobs_upper_bound (job_blockHeight j) jobs in
    take n jobs ++ j :: drop n jobs.

(** [std::upper_bound] over [m_transfers] by transaction id. *)
Fixpoint transfers_upper_bound (txId : nat) (l : list (nat * WalletTransfer)) : nat :=
  match l with
  | [] => O
  | a :: rest =>
      if decide (a.1 <= txId)%nat then S (transfers_upper_bound txId rest) else O
  end.

(** ** Constants of the anonymous namespace (lines 49-53) *)

Definition WALLET_SOFTLOCK_BLOCKS_COUNT : Z := 1.
Definition DUST_THRESHOLD : Z := 10000.

(** ** Free functions of the anonymous namespace *)

(** [validateAddress] (lines 65-68). *)
Definition validateAddress (env : Env) (addr : string) : bool :=
  bool_decide (is_Some (currency_parseAccountAddressString env addr)).

(** [validateAddresses] (lines 70-76). *)
Fixpoint validateAddresses (env : Env) (destinations : list WalletTransfer) : result unit :=
  match destinations with
  | [] => Ok tt
  | destination :: rest =>
      if validateAddress env (address destination)
      then validateAddresses env rest
      else Throw error.BAD_ADDRESS
  end.

(** The loop of [countNeededMoney] (lines 80-93), from the running value of
    [neededMoney]. *)
Fixpoint countNeededMoney_loop (destinations : list WalletTransfer) (neededMoney : Z)
    : result Z :=
  match destinations with
  | [] => Ok neededMoney
  | transfer :: rest =>
      if decide (amount transfer = 0) then Throw error.ZERO_DESTINATION
      else if decide (amount transfer < 0) then Throw error.INVALID_ARGUMENT
      else
        let uamount := wrap64 (amount transfer) in
        let neededMoney := add64 neededMoney uamount in
        if decide (neededMoney < uamount) then Throw error.SUM_OVERFLOW
        else countNeededMoney_loop rest neededMoney
  end.

(** [countNeededMoney] (lines 78-101). *)
Definition countNeededMoney (destinations : list WalletTransfer) (fee : Z) : result Z :=
  match countNeededMoney_loop destinations 0 with
  | Throw e => Throw e
  | Ok neededMoney =>
      let neededMoney := add64 neededMoney fee in
      if decide (neededMoney < fee) then Throw error.SUM_OVERFLOW else Ok neededMoney
  end.

(** [checkIfEnoughMixins] (lines 103-114). *)
Definition checkIfEnoughMixins (mixinResult : list outs_for_amount) (mixIn : Z)
    : result unit :=
  let notEnoughIt :=
    list_find (fun ofa => Z.of_nat (length (ofa_outs ofa)) < mixIn) mixinResult in
  if decide (mixIn = 0 /\ mixinResult = []) then Throw error.MIXIN_COUNT_TOO_BIG
  else if decide (is_Some notEnoughIt) then Throw error.MIXIN_COUNT_TOO_BIG
  else Ok tt.

(** ** Private helpers of the wallet *)

(** [throwIfNotInitialized] (lines 956-960), [throwIfStopped] (lines 1212-1216). *)
Definition throwIfNotInitialized : M unit := fun s =>
  if decide (m_state s = WalletState.INITIALIZED) then (Ok tt, s)
  else (Throw error.NOT_INITIALIZED, s).

Definition throwIfStopped : M unit := fun s =>
  if m_stopped s then (Throw error.OPERATION_CANCELLED, s) else (Ok tt, s).

(** [pushEvent] (lines 1036-1039); waking the waiter has no effect on the
    member variables. *)
Definition pushEvent (event : WalletEvent) (s : WalletGreen) : WalletGreen :=
  set_events (m_events s ++ [event]) s.

(** [parseAddress] (lines 1160-1168). *)
Definition parseAddress (env : Env) (addr : string) : result AccountPublicAddress :=
  match currency_parseAccountAddressString env addr with
  | Some pubAddr => Ok pubAddr
  | None => Throw error.INVALID_ARGUMENT
  end.

(** [getWalletRecord(const PublicKey&)] (lines 1137-1144),
    [getWalletRecord(const std::string&)] (lines 1146-1149) and
    [getWalletRecord(ITransfersContainer* )] (lines 1151-1158). *)
Definition getWalletRecord_key (key : PublicKey) (s : WalletGreen) : result WalletRecord :=
  match find_wallet_by_key key (m_walletsContainer s) with
  | Some (_, w) => Ok w
  | None => Throw error.INVALID_ARGUMENT
  end.

Definition getWalletRecord_address (env : Env) (addr : string) (s : WalletGreen)
    : result WalletRecord :=
  match parseAddress env addr with
  | Throw e => Throw e
  | Ok pubAddr => getWalletRecord_key (spendPublicKey_of pubAddr) s
  end.

Definition getWalletRecord_container (c : Container) (s : WalletGreen)
    : result WalletRecord :=
  match find_wallet_by_container c (m_walletsContainer s) with
  | Some (_, w) => Ok w
  | None => Throw error.INVALID_ARGUMENT
  end.

(** [isOutputUsed] (lines 1170-1174). *)
Definition isOutputUsed (o : TransactionOutputInformation) (s : WalletGreen) : bool :=
  bool_decide (Exists (fun x => so_transactionHash x = out_transactionHash o /\
                                so_outputInTransaction x = outputInTransaction o)
                 (m_spentOutputs s)).

(** [markOutputsSpent] (lines 1176-1182). *)
Definition markOutputsSpent (transactionHash : Hash)
    (selectedTransfers : list OutputToTransfer) (s : WalletGreen) : WalletGreen :=
  set_spentOutputs
    (fold_left (fun index output =>
        spentOutputs_insert
          (mkSpentOutput (out_amount (out output)) (out_transactionHash (out output))
             (outputInTransaction (out output)) (ott_wallet output) transactionHash)
          index)
      selectedTransfers (m_spentOutputs s)) s.

(** [deleteSpentOutputs] (lines 1184-1187). *)
Definition deleteSpentOutputs (transactionHash : Hash) (s : WalletGreen) : WalletGreen :=
  set_spentOutputs
    (filter (fun o => spendingTransactionHash o <> transactionHash) (m_spentOutputs s)) s.

(** [countSpentBalance] (lines 1189-1198). *)
Definition countSpentBalance (w : WalletPtr) (s : WalletGreen) : Z :=
  sum64 (map so_amount (filter (fun o => so_wallet o = w) (m_spentOutputs s))).

(** [insertUnlockTransactionJob] (lines 1088-1091) and
    [deleteUnlockTransactionJob] (lines 1093-1096). *)
Definition insertUnlockTransactionJob (transactionHash : Hash) (height : Z)
    (c : Container) (s : WalletGreen) : WalletGreen :=
  set_unlockTransactionsJob
    (jobs_insert (mkUnlockTransactionJob height c transactionHash)
       (m_unlockTransactionsJob s)) s.

Definition deleteUnlockTransactionJob (transactionHash : Hash) (s : WalletGreen)
    : WalletGreen :=
  set_unlockTransactionsJob
    (filter (fun j => job_transactionHash j <> transactionHash)
       (m_unlockTransactionsJob s)) s.

(** The sum over [m_change] that [updateBalance] accumulates (line 1115). *)
Definition change_sum (s : WalletGreen) : Z :=
  map_fold (fun _ item change => add64 change item) 0 (m_change s).

(** The values [updateBalance] computes for [actual] and [pending] (lines
    1105-1117) once it has found the record [w]. *)
Definition updateBalance_actual (env : Env) (c : Container) (w : WalletRecord)
    (s : WalletGreen) : Z :=
  let actual := wrap64 (container_balance env c IncludeAllUnlocked) in
  let unconfirmedBalance := countSpentBalance (self w) s in
  sub64 actual unconfirmedBalance.

Definition updateBalance_pending (env : Env) (c : Container) (s : WalletGreen) : Z :=
  let pending := wrap64 (container_balance env c IncludeAllLocked) in
  match m_walletsContainer s with
  | w0 :: _ => if decide (c = container w0) then add64 pending (change_sum s) else pending
  | [] => pending
  end.

(** [updateBalance] (lines 1098-1135). *)
Definition updateBalance (env : Env) (c : Container) (s : WalletGreen) : WalletGreen :=
  match find_wallet_by_container c (m_walletsContainer s) with
  | None => s
  | Some (i, it) =>
      let actual := updateBalance_actual env c it s in
      let pending := updateBalance_pending env c s in
      let m_actualBalance' :=
        if decide (actualBalance it < actual)
        then add64 (m_actualBalance s) (sub64 actual (actualBalance it))
        else sub64 (m_actualBalance s) (sub64 (actualBalance it) actual) in
      let m_pendingBalance' :=
        if decide (pendingBalance it < pending)
        then add64 (m_pendingBalance s) (sub64 pending (pendingBalance it))
        else sub64 (m_pendingBalance s) (sub64 (pendingBalance it) pending) in
      let wallet' :=
        mkWalletRecord (self it) (spendPublicKey it) (spendSecretKey it) (container it)
          pending actual (creationTimestamp it) in
      set_walletsContainer (<[i := wallet']> (m_walletsContainer s))
        (set_pendingBalance m_pendingBalance'
           (set_actualBalance m_actualBalance' s))
  end.

(** [std::for_each] over a list with a body that may throw. *)
Fixpoint for_each {A : Type} (l : list A) (body : A -> M unit) : M unit :=
  match l with
  | [] => mret tt
  | x :: rest => body x ;; for_each rest body
  end.

(** The [std::set<WalletRecord*>] built by [updateUsedWalletsBalances]
    (lines 1201-1206): the pointers in ascending order, each once. *)
Definition usedWallets (w0 : WalletRecord) (selectedTransfers : list OutputToTransfer)
    : list WalletPtr :=
  merge_sort N.le (remove_dups (self w0 :: map ott_wallet selectedTransfers)).

(** The body of the second [for_each] of [updateUsedWalletsBalances] (lines
    1207-1209): [this->updateBalance(wallet->container)]. *)
Definition updateBalance_at (env : Env) (p : WalletPtr) : M unit := fun s =>
  match deref_wallet p (m_walletsContainer s) with
  | Some (_, w) => (Ok tt, updateBalance env (container w) s)
  | None => (Throw error.ASSERTION_FAILED, s)
  end.

(** [updateUsedWalletsBalances] (lines 1200-1210). *)
Definition updateUsedWalletsBalances (env : Env)
    (selectedTransfers : list OutputToTransfer) : M unit :=
  registry ← gets m_walletsContainer;
  match registry with
  | [] => throw error.ASSERTION_FAILED
  | w0 :: _ => for_each (usedWallets w0 selectedTransfers) (updateBalance_at env)
  end.

(** ** The transaction ledger *)

(** The assignments made inside the [modify] callbacks. *)
Definition with_state (st : WalletTransactionState.t) (transaction : WalletTransaction)
    : WalletTransaction :=
  mkWalletTransaction st (timestamp transaction) (blockHeight transaction)
    (hash transaction) (totalAmount transaction) (fee transaction)
    (creationTime transaction) (unlockTime transaction) (extra transaction).

Definition with_blockHeight (height : Z) (transaction : WalletTransaction)
    : WalletTransaction :=
  mkWalletTransaction (state transaction) (timestamp transaction) height
    (hash transaction) (totalAmount transaction) (fee transaction)
    (creationTime transaction) (unlockTime transaction) (extra transaction).

(** [pushBackOutgoingTransfers] (lines 596-601). *)
Definition pushBackOutgoingTransfers (txId : nat) (destinations : list WalletTransfer)
    (s : WalletGreen) : WalletGreen :=
  set_transfers
    (m_transfers s ++
       map (fun dest => (txId, mkWalletTransfer (address dest) (neg64 (amount dest))))
         destinations) s.

(** [insertOutgoingTransaction] (lines 603-619). *)
Definition insertOutgoingTransaction (env : Env) (transactionHash : Hash)
    (totalAmount : Z) (fee : Z) (extra : string) (unlockTimestamp : Z) : M nat := fun s =>
  let insertTx :=
    {| state := WalletTransactionState.FAILED;
       creationTime := wrap64 (std_time env);
       unlockTime := unlockTimestamp;
       blockHeight := WALLET_UNCONFIRMED_TRANSACTION_HEIGHT env;
       extra := extra;
       fee := fee;
       hash := transactionHash;
       totalAmount := totalAmount;
       timestamp := 0 |} in
  let txId := length (m_transactions s) in
  (Ok txId, set_transactions (transactions_push_back insertTx (m_transactions s)) s).

(** [transactionExists] (lines 621-625). *)
Definition transactionExists (h : Hash) (s : WalletGreen) : bool :=
  bool_decide (is_Some (find_transaction h (m_transactions s))).

(** [updateTransactionHeight] (lines 627-642). *)
Definition updateTransactionHeight (h : Hash) (height : Z) : M unit := fun s =>
  match find_transaction h (m_transactions s) with
  | Some (i, _) =>
      (Ok tt,
       set_transactions
         (alter (fun transaction =>
              with_state WalletTransactionState.SUCCEEDED (with_blockHeight height transaction))
            i (m_transactions s)) s)
  | None => (Throw error.INVALID_ARGUMENT, s)
  end.

(** [insertIncomingTransaction] (lines 644-660). *)
Definition insertIncomingTransaction (info : TransactionInformation) (txBalance : Z)
    : M nat := fun s =>
  let tx :=
    {| state := WalletTransactionState.SUCCEEDED;
       timestamp := info_timestamp info;
       blockHeight := info_blockHeight info;
       hash := info_transactionHash info;
       fee := sub64 (totalAmountIn info) (totalAmountOut info);
       unlockTime := info_unlockTime info;
       extra := info_extra info;
       totalAmount := txBalance;
       creationTime := info_timestamp info |} in
  let index := transactions_push_back tx (m_transactions s) in
  (Ok (length index - 1)%nat, set_transactions index s).

(** [insertIncomingTransfer] (lines 662-669). *)
Definition insertIncomingTransfer (txId : nat) (addr : string) (amount : Z)
    (s : WalletGreen) : WalletGreen :=
  let it := transfers_upper_bound txId (m_transfers s) in
  set_transfers
    (take it (m_transfers s) ++ (txId, mkWalletTransfer addr amount) :: drop it (m_transfers s))
    s.

(** [getTransactionId] (lines 1041-1052). *)
Definition getTransactionId (transactionHash : Hash) : M nat := fun s =>
  match find_transaction transactionHash (m_transactions s) with
  | Some (txId, _) => (Ok txId, s)
  | None => (Throw error.INVALID_ARGUMENT, s)
  end.

(** ** Output selection *)

(** The local variables of [selectTransfers] that its loop changes, and the
    number of values drawn from the random engine so far. *)
Record SelectState : Type := mkSelectState {
  sel_foundMoney : Z;
  sel_dust : bool;
  sel_walletOuts : list WalletOuts;
  sel_selectedTransfers : list OutputToTransfer;
  sel_draws : nat
}.

Inductive SelectResult : Type :=
  | Selected (st : SelectState)
  (** [assert(addressOuts.size() > 0)] failed *)
  | AssertionFailed
  (** the model's iteration bound was reached *)
  | OutOfFuel.

(** [uniform_int_distribution<size_t>(0, n - 1)(randomGenerator)] as the
    [k]-th use of the generator. *)
Definition uniform (env : Env) (k n : nat) : nat := (crypto_rand env k `mod` n)%nat.

(** One pass through the body of the [while] loop (lines 776-799). *)
Definition select_step (env : Env) (s : WalletGreen) (dustThreshold : Z)
    (st : SelectState) : option SelectState :=
  let walletIndex := uniform env (sel_draws st) (length (sel_walletOuts st)) in
  match sel_walletOuts st !! walletIndex with
  | None => None
  | Some wo =>
      let addressOuts := outs wo in
      let outIndex := uniform env (S (sel_draws st)) (length addressOuts) in
      match addressOuts !! outIndex with
      | None => None
      | Some o =>
          let taken :=
            negb (isOutputUsed o s) &&
            (bool_decide (dustThreshold < out_amount o) || sel_dust st) in
          let dust' :=
            if taken && bool_decide (out_amount o <= dustThreshold) then false
            else sel_dust st in
          let foundMoney' :=
            if taken then add64 (sel_foundMoney st) (out_amount o) else sel_foundMoney st in
          let selectedTransfers' :=
            if taken then sel_selectedTransfers st ++ [mkOutputToTransfer o (wallet wo)]
            else sel_selectedTransfers st in
          let addressOuts' := delete outIndex addressOuts in
          let walletOuts' :=
            match addressOuts' with
            | [] => delete walletIndex (sel_walletOuts st)
            | _ => <[walletIndex := mkWalletOuts (wallet wo) addressOuts']> (sel_walletOuts st)
            end in
          Some (mkSelectState foundMoney' dust' walletOuts' selectedTransfers'
                  (S (S (sel_draws st))))
      end
  end.

(** The [while] loop (line 775), at most [fuel] passes. *)
Fixpoint select_loop (env : Env) (s : WalletGreen) (neededMoney dustThreshold : Z)
    (fuel : nat) (st : SelectState) : SelectResult :=
  if bool_decide (sel_foundMoney st < neededMoney) && bool_decide (sel_walletOuts st <> [])
  then
    match fuel with
    | O => OutOfFuel
    | S fuel' =>
        match select_step env s dustThreshold st with
        | None => AssertionFailed
        | Some st' => select_loop env s neededMoney dustThreshold fuel' st'
        end
    end
  else Selected st.

(** The sweep for one dust output after the loop (lines 806-818). *)
Fixpoint dust_sweep (s : WalletGreen) (dustThreshold : Z) (wos : list WalletOuts)
    : option OutputToTransfer :=
  match wos with
  | [] => None
  | addressOuts :: rest =>
      match list_find (fun o => out_amount o <= dustThreshold /\ isOutputUsed o s = false)
              (outs addressOuts) with
      | Some (_, it) => Some (mkOutputToTransfer it (wallet addressOuts))
      | None => dust_sweep s dustThreshold rest
      end
  end.

(** The number of outputs in a working set: every pass of the loop erases
    one, so one pass more than this is never needed. *)
Definition total_outs (wos : list WalletOuts) : nat :=
  sum_list_with (fun wo => length (outs wo)) wos.

(** [selectTransfers] (lines 763-821).  The result carries the returned
    [foundMoney] and the final [selectedTransfers]. *)
Definition selectTransfers (env : Env) (s : WalletGreen) (neededMoney : Z) (dust : bool)
    (dustThreshold : Z) (wallets : list WalletOuts)
    (selectedTransfers : list OutputToTransfer) : SelectResult :=
  match select_loop env s neededMoney dustThreshold (S (total_outs wallets))
          (mkSelectState 0 dust wallets selectedTransfers O) with
  | Selected st =>
      if negb (sel_dust st) then Selected st
      else
        match dust_sweep s dustThreshold (sel_walletOuts st) with
        | Some it =>
            Selected (mkSelectState (add64 (sel_foundMoney st) (out_amount (out it)))
                        (sel_dust st) (sel_walletOuts st)
                        (sel_selectedTransfers st ++ [it]) (sel_draws st))
        | None => Selected st
        end
  | r => r
  end.

(** [pickWalletsWithMoney] (lines 823-842). *)
Definition pickWalletsWithMoney (env : Env) (s : WalletGreen) : list WalletOuts :=
  map (fun w => mkWalletOuts (self w) (container_getOutputs env (container w)))
    (filter (fun w => actualBalance w <> 0) (m_walletsContainer s)).

(** [pickWallet] (lines 844-853). *)
Definition pickWallet (env : Env) (addr : string) (s : WalletGreen) : result WalletOuts :=
  match getWalletRecord_address env addr s with
  | Throw e => Throw e
  | Ok w => Ok (mkWalletOuts (self w) (container_getOutputs env (container w)))
  end.

(** ** The send pipeline *)

(** [sendTransaction] (lines 697-722).  Waiting for the completion event
    yields the node's error code. *)
Definition sendTransaction (env : Env) (tx : ITransaction) : M unit :=
  let ba := getTransactionData tx in
  limit ← gets m_upperTransactionSizeLimit;
  throw_if (bool_decide (limit < Z.of_nat (length ba))) error.TRANSACTION_SIZE_TOO_BIG ;;
  throw_if (negb (fromBinaryArray env ba)) error.INTERNAL_WALLET_ERROR ;;
  throwIfStopped ;;
  modify (fun s => set_node (m_node s ++ [ba]) s) ;;
  match node_relayTransaction env ba with
  | Some ec => throw (error.NODE_ERROR ec)
  | None => mret tt
  end.

(** [requestMixinOuts] (lines 734-761). *)
Definition requestMixinOuts (env : Env) (selectedTransfers : list OutputToTransfer)
    (mixIn : Z) : M (list outs_for_amount) :=
  let amounts := map (fun o => out_amount (out o)) selectedTransfers in
  throwIfStopped ;;
  let '(mixinResult, mixinError) := node_getRandomOutsByAmounts env amounts mixIn in
  lift (checkIfEnoughMixins mixinResult mixIn) ;;
  match mixinError with
  | Some ec => throw (error.NODE_ERROR ec)
  | None => mret mixinResult
  end.

(** The locals of [doTransfer] that are alive when the transaction has been
    assembled (line 570). *)
Record Assembled : Type := mkAssembled {
  neededMoney : Z;
  asm_foundMoney : Z;
  asm_selectedTransfers : list OutputToTransfer;
  changeDestination : WalletTransfer;
  tx : ITransaction
}.

(** The validation at the head of [doTransfer] (lines 538-544): the value of
    [neededMoney], or the error thrown. *)
Definition doTransfer_validate (env : Env) (destinations : list WalletTransfer)
    (fee : Z) : result Z :=
  if decide (destinations = []) then Throw error.ZERO_DESTINATION
  else
    match validateAddresses env destinations with
    | Throw e => Throw e
    | Ok _ => countNeededMoney destinations fee
    end.

(** [doTransfer] from the selection to the assembled transaction (lines
    546-570).  Of [splitDestinations] (lines 855-875) the calls of
    [parseAddressString], which throw BAD_ADDRESS, are written out; the
    rest is the transaction builder's. *)
Definition doTransfer_build (env : Env) (wallets : list WalletOuts)
    (destinations : list WalletTransfer) (neededMoney mixIn : Z) (extra : string)
    (unlockTimestamp : Z) : M Assembled :=
  selection ← gets (fun s =>
    selectTransfers env s neededMoney (bool_decide (mixIn = 0)) DUST_THRESHOLD wallets []);
  match selection with
  | AssertionFailed | OutOfFuel => throw error.ASSERTION_FAILED
  | Selected st =>
      let foundMoney := sel_foundMoney st in
      let selectedTransfers := sel_selectedTransfers st in
      throw_if (bool_decide (foundMoney < neededMoney)) error.WRONG_AMOUNT ;;
      mixinResult ←
        (if decide (mixIn <> 0) then requestMixinOuts env selectedTransfers mixIn
         else mret []);
      registry ← gets m_walletsContainer;
      match registry with
      | [] => throw error.ASSERTION_FAILED
      | w0 :: _ =>
          viewPublicKey ← gets m_viewPublicKey;
          let changeDestination :=
            mkWalletTransfer
              (currency_accountAddressAsString env
                 (mkAccountPublicAddress (spendPublicKey w0) viewPublicKey))
              (to_int64 (sub64 foundMoney neededMoney)) in
          lift (validateAddresses env (destinations ++ [changeDestination])) ;;
          match builder_makeTransaction env selectedTransfers mixinResult mixIn
                  destinations changeDestination extra unlockTimestamp with
          | inl code => throw (error.BUILDER_ERROR code)
          | inr tx =>
              mret (mkAssembled neededMoney foundMoney selectedTransfers
                      changeDestination tx)
          end
      end
  end.

(** [doTransfer] up to the assembled transaction (lines 538-570). *)
Definition doTransfer_assemble (env : Env) (wallets : list WalletOuts)
    (destinations : list WalletTransfer) (fee mixIn : Z) (extra : string)
    (unlockTimestamp : Z) : M Assembled :=
  neededMoney ← lift (doTransfer_validate env destinations fee);
  doTransfer_build env wallets destinations neededMoney mixIn extra unlockTimestamp.

(** [doTransfer] from the pre-commit record on (lines 572-593). *)
Definition doTransfer_commit (env : Env) (destinations : list WalletTransfer)
    (fee : Z) (unlockTimestamp : Z) (a : Assembled) : M nat :=
  txId ← insertOutgoingTransaction env (getTransactionHash (tx a))
            (neg64 (to_int64 (neededMoney a))) fee (getExtra (tx a)) unlockTimestamp;
  modify (pushBackOutgoingTransfers txId destinations) ;;
  try_catch_rethrow (sendTransaction env (tx a))
    (modify (pushEvent (TRANSACTION_CREATED txId))) ;;
  size ← gets (fun s => length (m_transactions s));
  throw_if (bool_decide (size <= txId)%nat) error.ASSERTION_FAILED ;;
  modify (fun s =>
    set_transactions
      (alter (with_state WalletTransactionState.SUCCEEDED) txId (m_transactions s)) s) ;;
  modify (markOutputsSpent (getTransactionHash (tx a)) (asm_selectedTransfers a)) ;;
  modify (fun s =>
    set_change (<[getTransactionHash (tx a) := wrap64 (amount (changeDestination a))]>
                  (m_change s)) s) ;;
  updateUsedWalletsBalances env (asm_selectedTransfers a) ;;
  modify (pushEvent (TRANSACTION_CREATED txId)) ;;
  mret txId.

(** [doTransfer] (lines 532-594). *)
Definition doTransfer (env : Env) (wallets : list WalletOuts)
    (destinations : list WalletTransfer) (fee mixIn : Z) (extra : string)
    (unlockTimestamp : Z) : M nat :=
  a ← doTransfer_assemble env wallets destinations fee mixIn extra unlockTimestamp;
  doTransfer_commit env destinations fee unlockTimestamp a.

(** [transfer(destinations, ...)] (lines 484-497); holding [m_readyEvent]
    only keeps the callbacks out while the call runs. *)
Definition transfer (env : Env) (destinations : list WalletTransfer) (fee mixIn : Z)
    (extra : string) (unlockTimestamp : Z) : M nat :=
  throwIfNotInitialized ;;
  throwIfStopped ;;
  wallets ← gets (pickWalletsWithMoney env);
  doTransfer env wallets destinations fee mixIn extra unlockTimestamp.

(** [transfer(sourceAddress, destinations, ...)] (lines 510-530). *)
Definition transfer_from (env : Env) (sourceAddress : string)
    (destinations : list WalletTransfer) (fee mixIn : Z) (extra : string)
    (unlockTimestamp : Z) : M nat :=
  throwIfNotInitialized ;;
  throwIfStopped ;;
  w ← reads (pickWallet env sourceAddress);
  let wallets := if decide (outs w = []) then [] else [w] in
  doTransfer env wallets destinations fee mixIn extra unlockTimestamp.

(** ** Lifecycle and registry *)

(** The object after its constructor (lines 143-154).

    Modelled from the spec: the member initialisers are in [WalletGreen.h],
    which is not among the sources; the wallet starts in state
    NOT_INITIALIZED with empty tables and both aggregate balances at zero,
    the state that [shutdown] "returns the state to". *)
Definition WalletGreen_new (env : Env) : WalletGreen :=
  mkWalletGreen WalletState.NOT_INITIALIZED false EmptyString 0%N 0%N [] [] [] [] [] ∅ 0 0 []
    (currency_maxTransactionSizeLimit env) [] 0%N.

(** [initialize] (lines 164-177). *)
Definition initialize (env : Env) (password : string) : M unit :=
  st ← gets m_state;
  throw_if (bool_decide (st <> WalletState.NOT_INITIALIZED)) error.ALREADY_INITIALIZED ;;
  throwIfStopped ;;
  modify (set_viewKeys (crypto_generate_keys env)) ;;
  modify (set_password password) ;;
  modify (set_state WalletState.INITIALIZED).

(** [clearCaches] (lines 198-211). *)
Definition clearCaches (s : WalletGreen) : WalletGreen :=
  set_pendingBalance 0 (set_actualBalance 0 (set_change ∅ (set_transfers []
    (set_transactions [] (set_unlockTransactionsJob [] (set_spentOutputs []
      (set_walletsContainer [] s))))))).

(** [doShutdown] (lines 186-196) and [shutdown] (lines 179-184). *)
Definition doShutdown (s : WalletGreen) : WalletGreen :=
  set_state WalletState.NOT_INITIALIZED (set_events [] (clearCaches s)).

Definition shutdown : M unit :=
  throwIfNotInitialized ;;
  modify doShutdown.

(** [save] (lines 213-226): the serializer only reads the object. *)
Definition save : M unit :=
  throwIfNotInitialized ;;
  throwIfStopped.

(** [changePassword] (lines 291-300). *)
Definition changePassword (oldPassword newPassword : string) : M unit :=
  throwIfNotInitialized ;;
  throwIfStopped ;;
  password ← gets m_password;
  throw_if (bool_decide (password <> oldPassword)) error.WRONG_PASSWORD ;;
  modify (set_password newPassword).

(** [getAddressCount] (lines 302-307) and [getAddress] (lines 309-319). *)
Definition getAddressCount : M nat :=
  throwIfNotInitialized ;;
  throwIfStopped ;;
  gets (fun s => length (m_walletsContainer s)).

Definition getAddress (env : Env) (index : nat) : M string :=
  throwIfNotInitialized ;;
  throwIfStopped ;;
  registry ← gets m_walletsContainer;
  viewPublicKey ← gets m_viewPublicKey;
  match registry !! index with
  | None => throw error.INVALID_ARGUMENT
  | Some w =>
      mret (currency_accountAddressAsString env
              (mkAccountPublicAddress (spendPublicKey w) viewPublicKey))
  end.

(** [addWallet] (lines 344-367).

    Modelled from the spec: [WalletRecord] is declared in [WalletIndices.h],
    which is not among the sources; a fresh record has both cached
    balances at zero, as invariant 1 of the data model needs. *)
Definition addWallet (env : Env) (spendKey : KeyPair) (s : WalletGreen) : WalletGreen :=
  let creationTimestamp := std_time env in
  let sub :=
    {| sub_address := mkAccountPublicAddress (publicKey spendKey) (m_viewPublicKey s);
       sub_viewSecretKey := m_viewSecretKey s;
       sub_spendSecretKey := secretKey spendKey;
       transactionSpendableAge := 10;
       syncStart_height := 0;
       syncStart_timestamp := sub64 (wrap64 creationTimestamp) (60 * 60 * 24) |} in
  let c := sync_addSubscription env sub in
  let w :=
    {| self := m_heap s;
       spendPublicKey := publicKey spendKey;
       spendSecretKey := secretKey spendKey;
       container := c;
       pendingBalance := 0;
       actualBalance := 0;
       creationTimestamp := creationTimestamp |} in
  set_heap (m_heap s + 1)%N
    (set_walletsContainer (wallets_push_back w (m_walletsContainer s)) s).

(** [createAddress(const KeyPair&)] (lines 328-342) and [createAddress()]
    (lines 321-326). *)
Definition createAddress_key (env : Env) (spendKey : KeyPair) : M string :=
  throwIfNotInitialized ;;
  throwIfStopped ;;
  modify (addWallet env spendKey) ;;
  viewPublicKey ← gets m_viewPublicKey;
  mret (currency_accountAddressAsString env
          (mkAccountPublicAddress (publicKey spendKey) viewPublicKey)).

Definition createAddress (env : Env) : M string :=
  createAddress_key env (crypto_generate_keys env).

(** [deleteAddress] (lines 369-393). *)
Definition deleteAddress (env : Env) (addr : string) : M unit :=
  throwIfNotInitialized ;;
  throwIfStopped ;;
  pubAddr ← lift (parseAddress env addr);
  registry ← gets m_walletsContainer;
  match find_wallet_by_key (spendPublicKey_of pubAddr) registry with
  | None => throw error.INVALID_ARGUMENT
  | Some (i, it) =>
      modify (fun s => set_actualBalance (sub64 (m_actualBalance s) (actualBalance it)) s) ;;
      modify (fun s => set_pendingBalance (sub64 (m_pendingBalance s) (pendingBalance it)) s) ;;
      modify (fun s =>
        set_spentOutputs (filter (fun o => so_wallet o <> self it) (m_spentOutputs s)) s) ;;
      modify (fun s => set_walletsContainer (delete i (m_walletsContainer s)) s)
  end.

(** The balance and ledger getters (lines 395-437). *)
Definition getActualBalance : M Z :=
  throwIfNotInitialized ;; throwIfStopped ;; gets m_actualBalance.

Definition getActualBalance_address (env : Env) (addr : string) : M Z :=
  throwIfNotInitialized ;;
  throwIfStopped ;;
  w ← reads (getWalletRecord_address env addr);
  mret (actualBalance w).

Definition getPendingBalance : M Z :=
  throwIfNotInitialized ;; throwIfStopped ;; gets m_pendingBalance.

Definition getPendingBalance_address (env : Env) (addr : string) : M Z :=
  throwIfNotInitialized ;;
  throwIfStopped ;;
  w ← reads (getWalletRecord_address env addr);
  mret (pendingBalance w).

Definition getTransactionCount : M nat :=
  throwIfNotInitialized ;; throwIfStopped ;; gets (fun s => length (m_transactions s)).

(** [start] (lines 931-933) and [stop] (lines 935-938). *)
Definition start (s : WalletGreen) : WalletGreen := set_stopped false s.
Definition stop (s : WalletGreen) : WalletGreen := set_stopped true s.

(** [getEvent] (lines 940-954), for a caller that is not kept waiting. *)
Definition getEvent : M WalletEvent :=
  throwIfNotInitialized ;;
  throwIfStopped ;;
  events ← gets m_events;
  match events with
  | [] => throw error.WOULD_BLOCK
  | event :: rest => modify (set_events rest) ;; mret event
  end.

(** ** The synchronizer callbacks *)

(** [unlockBalances] (lines 979-989). *)
Definition unlockBalances (env : Env) (height : Z) (s : WalletGreen) : WalletGreen :=
  let index := m_unlockTransactionsJob s in
  let upper := jobs_upper_bound height index in
  let s1 := fold_left (fun s it => updateBalance env (job_container it) s) (take upper index) s in
  pushEvent BALANCE_UNLOCKED (set_unlockTransactionsJob (drop upper index) s1).

(** [onSynchronizationProgressUpdated] (lines 969-977). *)
Definition onSynchronizationProgressUpdated (env : Env) (current : Z) (s : WalletGreen)
    : WalletGreen :=
  if decide (m_state s = WalletState.NOT_INITIALIZED) then s
  else unlockBalances env current s.

(** Lines 1013-1023 of [transactionUpdated]: the row of the ledger and the
    event to send. *)
Definition transactionUpdated_ledger (env : Env) (c : Container)
    (info : TransactionInformation) (txBalance : Z) : M WalletEvent :=
  known ← gets (transactionExists (info_transactionHash info));
  if (known : bool) then
    updateTransactionHeight (info_transactionHash info) (info_blockHeight info) ;;
    id ← getTransactionId (info_transactionHash info);
    mret (TRANSACTION_UPDATED id)
  else
    id ← insertIncomingTransaction info txBalance;
    w ← reads (getWalletRecord_container c);
    viewPublicKey ← gets m_viewPublicKey;
    modify (insertIncomingTransfer id
              (currency_accountAddressAsString env
                 (mkAccountPublicAddress (spendPublicKey w) viewPublicKey))
              txBalance) ;;
    mret (TRANSACTION_CREATED id).

(** The height computed on line 1027, in [uint32_t]. *)
Definition unlock_height (info : TransactionInformation) : Z :=
  add32 (add32 (add32 (info_blockHeight info) (wrap32 (info_unlockTime info)))
           WALLET_SOFTLOCK_BLOCKS_COUNT) 1.

(** Lines 1025-1030 of [transactionUpdated]: the change entry and the
    unlock job. *)
Definition transactionUpdated_unlock (env : Env) (c : Container) (transactionHash : Hash)
    (info : TransactionInformation) (s : WalletGreen) : WalletGreen :=
  if decide (info_blockHeight info <> WALLET_UNCONFIRMED_TRANSACTION_HEIGHT env)
  then
    let height := unlock_height info in
    insertUnlockTransactionJob transactionHash height c
      (set_change (delete transactionHash (m_change s)) s)
  else s.

(** [transactionUpdated] once past the check of [m_state] (lines 1002-1033);
    [c] is [&object->getContainer()]. *)
Definition transactionUpdated_initialized (env : Env) (c : Container)
    (transactionHash : Hash) : M unit :=
  modify (deleteSpentOutputs transactionHash) ;;
  match container_getTransactionInformation env c transactionHash with
  | None => throw error.ASSERTION_FAILED
  | Some (info, txBalance) =>
      event ← transactionUpdated_ledger env c info txBalance;
      modify (transactionUpdated_unlock env c transactionHash info) ;;
      modify (updateBalance env c) ;;
      modify (pushEvent event)
  end.

(** [transactionUpdated] (lines 995-1034). *)
Definition transactionUpdated (env : Env) (c : Container) (transactionHash : Hash)
    : M unit := fun s =>
  if decide (m_state s = WalletState.NOT_INITIALIZED) then (Ok tt, s)
  else transactionUpdated_initialized env c transactionHash s.

(** [transactionDeleted] (lines 1059-1086). *)
Definition transactionDeleted (env : Env) (c : Container) (transactionHash : Hash)
    (s : WalletGreen) : WalletGreen :=
  if decide (m_state s = WalletState.NOT_INITIALIZED) then s
  else
    match find_transaction transactionHash (m_transactions s) with
    | None => s
    | Some (id, _) =>
        let s := deleteUnlockTransactionJob transactionHash s in
        let s := set_change (delete transactionHash (m_change s)) s in
        let s := deleteSpentOutputs transactionHash s in
        let s :=
          set_transactions
            (alter (fun tx =>
                 with_blockHeight (WALLET_UNCONFIRMED_TRANSACTION_HEIGHT env)
                   (with_state WalletTransactionState.CANCELLED tx))
               id (m_transactions s)) s in
        let s := updateBalance env c s in
        pushEvent (TRANSACTION_UPDATED id) s
    end.

(** ** Calls on the wallet

    The public operations and the three callbacks as data, so that a
    history of the object is a list of calls.  [load] is left out: what it
    writes is decided by [WalletSerializer], which is not among the sources.
    The getters not listed here are [const] and only read the object. *)
Inductive call : Type :=
  | call_initialize (password : string)
  | call_shutdown
  | call_save
  | call_changePassword (oldPassword newPassword : string)
  | call_getAddressCount
  | call_getAddress (index : nat)
  | call_createAddress
  | call_createAddress_key (spendKey : KeyPair)
  | call_deleteAddress (addr : string)
  | call_getActualBalance
  | call_getActualBalance_address (addr : string)
  | call_getPendingBalance
  | call_getPendingBalance_address (addr : string)
  | call_getTransactionCount
  | call_transfer (destinations : list WalletTransfer) (fee mixIn : Z) (extra : string)
      (unlockTimestamp : Z)
  | call_transfer_from (sourceAddress : string) (destinations : list WalletTransfer)
      (fee mixIn : Z) (extra : string) (unlockTimestamp : Z)
  | call_start
  | call_stop
  | call_getEvent
  | call_synchronizationProgressUpdated (current : Z)
  | call_transactionUpdated (c : Container) (transactionHash : Hash)
  | call_transactionDeleted (c : Container) (transactionHash : Hash).

(** The object after a call, whether the call returned or threw. *)
Definition exec (env : Env) (c : call) (s : WalletGreen) : WalletGreen :=
  match c with
  | call_initialize password => (initialize env password s).2
  | call_shutdown => (shutdown s).2
  | call_save => (save s).2
  | call_changePassword o n => (changePassword o n s).2
  | call_getAddressCount => (getAddressCount s).2
  | call_getAddress index => (getAddress env index s).2
  | call_createAddress => (createAddress env s).2
  | call_createAddress_key k => (createAddress_key env k s).2
  | call_deleteAddress a => (deleteAddress env a s).2
  | call_getActualBalance => (getActualBalance s).2
  | call_getActualBalance_address a => (getActualBalance_address env a s).2
  | call_getPendingBalance => (getPendingBalance s).2
  | call_getPendingBalance_address a => (getPendingBalance_address env a s).2
  | call_getTransactionCount => (getTransactionCount s).2
  | call_transfer d f m e u => (transfer env d f m e u s).2
  | call_transfer_from a d f m e u => (transfer_from env a d f m e u s).2
  | call_start => start s
  | call_stop => stop s
  | call_getEvent => (getEvent s).2
  | call_synchronizationProgressUpdated current =>
      onSynchronizationProgressUpdated env current s
  | call_transactionUpdated c h => (transactionUpdated env c h s).2
  | call_transactionDeleted c h => transactionDeleted env c h s
  end.

(** A history: each call with the environment it ran in. *)
Definition run (history : list (Env * call)) (s : WalletGreen) : WalletGreen :=
  fold_left (fun s ec => exec ec.1 ec.2 s) history s.

(** * Specification predicates *)

(** ** Properties kept by member functions

    [preserves P m]: the object satisfies [P] after [m] whenever it did
    before, whether [m] returns or throws. *)
Definition preserves {A : Type} (P : WalletGreen -> Prop) (m : M A) : Prop :=
  forall s, P s -> P (m s).2.


(** ** The send pipeline *)




(** The outputs on offer in a working set, each with the wallet that
    offers it. *)
Definition offered (wos : list WalletOuts) : list OutputToTransfer :=
  concat (map (fun wo => map (fun o => mkOutputToTransfer o (wallet wo)) (outs wo)) wos).



(** ** Aggregate balances

    The aggregate balances are the sums of the cached balances of the
    registry, taken in the [uint64_t] arithmetic the aggregates live in. *)
Definition balances_consistent (s : WalletGreen) : Prop :=
  m_actualBalance s = sum64 (map actualBalance (m_walletsContainer s)) /\
  m_pendingBalance s = sum64 (map pendingBalance (m_walletsContainer s)).

(** ** The unlock schedule *)

(** The block-height index keeps the jobs in ascending order of height. *)
Definition jobs_sorted (jobs : list UnlockTransactionJob) : Prop :=
  StronglySorted (fun a b => job_blockHeight a <= job_blockHeight b) jobs.

(** The distinct values of a list, each at its first occurrence; [seen]
    holds the values met so far. *)
Fixpoint distinct_from (seen l : list N) : list N :=
  match l with
  | [] => []
  | c :: rest =>
      if decide (c ∈ seen) then distinct_from seen rest
      else c :: distinct_from (c :: seen) rest
  end.

Definition distinct (l : list N) : list N := distinct_from [] l.

(** The cached balances of the record of container [c] are the ones
    [updateBalance] would compute now, and the aggregates are in range:
    recomputing [c] changes nothing. *)
Definition balance_settled (env : Env) (c : Container) (s : WalletGreen) : Prop :=
  forall i it,
    find_wallet_by_container c (m_walletsContainer s) = Some (i, it) ->
    actualBalance it = updateBalance_actual env c it s /\
    pendingBalance it = updateBalance_pending env c s /\
    0 <= m_actualBalance s < 2 ^ 64 /\
    0 <= m_pendingBalance s < 2 ^ 64.

(** ** Output selection *)

(** The number of selected outputs whose amount is at most the dust
    threshold. *)
Definition dust_count (dustThreshold : Z) (sel : list OutputToTransfer) : nat :=
  length (filter (fun o => out_amount (out o) <= dustThreshold) sel).

(** * A concrete wallet

    One environment and a few histories on which the statements below are
    evaluated. *)

(** Addresses ["A"] and ["B"] belong to spend keys 1 and 2 under view key
    7; ["X"] is a foreign address; nothing else parses.  The container of
    spend key [k] has handle [100 + k].  Container 101 holds one unlocked
    output of 1000 from transaction 60, which was mined at height 5;
    transaction 63, mined at height 6, is known to the containers too,
    and so is transaction 64, mined at height 100 with unlock time 2^32. *)
Definition example_env : Env := {|
  currency_maxTransactionSizeLimit := 100000;
  currency_parseAccountAddressString := fun a =>
    if decide (a = "A")%string then Some (mkAccountPublicAddress 1 7)
    else if decide (a = "B")%string then Some (mkAccountPublicAddress 2 7)
    else if decide (a = "X")%string then Some (mkAccountPublicAddress 9 9)
    else None;
  currency_accountAddressAsString := fun a =>
    if decide (spendPublicKey_of a = 1%N) then "A"%string
    else if decide (spendPublicKey_of a = 2%N) then "B"%string
    else "X"%string;
  std_time := 1000000;
  crypto_generate_keys := mkKeyPair 7 17;
  crypto_rand := fun _ => O;
  sync_addSubscription := fun sub => (100 + spendPublicKey_of (sub_address sub))%N;
  container_balance := fun c f =>
    match f with
    | IncludeAllUnlocked => if decide (c = 101%N) then 1000 else 0
    | _ => 0
    end;
  container_getOutputs := fun c =>
    if decide (c = 101%N) then [mkTransactionOutputInformation 1000 0 0 60 61 62] else [];
  container_getTransactionInformation := fun c h =>
    if decide (h = 60%N)
    then Some (mkTransactionInformation 60 5 900000 0 1010 1000 EmptyString, 1000)
    else if decide (h = 63%N)
    then Some (mkTransactionInformation 63 6 900100 0 20 10 EmptyString, 10)
    else if decide (h = 64%N)
    then Some (mkTransactionInformation 64 100 900200 4294967296 20 10 EmptyString, 10)
    else None;
  node_relayTransaction := fun _ => None;
  node_getRandomOutsByAmounts := fun _ _ => ([], None);
  fromBinaryArray := fun _ => true;
  builder_makeTransaction := fun _ _ _ _ _ _ _ =>
    inr (mkITransaction 77 EmptyString [1; 2; 3]%N);
  WALLET_UNCONFIRMED_TRANSACTION_HEIGHT := 4294967295
|}.


(** The wallet after [initialize], two [createAddress] calls and the
    callback for the incoming transaction 60. *)
Definition example_wallet : WalletGreen :=
  run [ (example_env, call_initialize "secret");
        (example_env, call_createAddress_key (mkKeyPair 1 11));
        (example_env, call_createAddress_key (mkKeyPair 2 12));
        (example_env, call_transactionUpdated 101 60) ]
    (WalletGreen_new example_env).

(** The same wallet after the callback for transaction 63 as well: two
    unlock jobs, both of container 101. *)
Definition example_wallet_two_jobs : WalletGreen :=
  exec example_env (call_transactionUpdated 101 63) example_wallet.
(** * Properties *)

(** ** Machine arithmetic *)

Lemma wrap64_range (z : Z) : 0 <= wrap64 z < 2 ^ 64.
Proof. unfold wrap64. apply Z.mod_pos_bound. lia. Qed.

Lemma wrap64_small (z : Z) : 0 <= z < 2 ^ 64 -> wrap64 z = z.
Proof. intros H. unfold wrap64. apply Z.mod_small. exact H. Qed.


Lemma wrap64_add_l (a b : Z) : wrap64 (wrap64 a + b) = wrap64 (a + b).
Proof. unfold wrap64. apply Zplus_mod_idemp_l. Qed.

Lemma wrap64_add_r (a b : Z) : wrap64 (a + wrap64 b) = wrap64 (a + b).
Proof. unfold wrap64. apply Zplus_mod_idemp_r. Qed.


Lemma wrap64_sub_r (a b : Z) : wrap64 (a - wrap64 b) = wrap64 (a - b).
Proof. unfold wrap64. apply Zminus_mod_idemp_r. Qed.


Lemma sum64_from (l : list Z) (a : Z) :
  fold_left add64 l (wrap64 a) = wrap64 (a + sumZ l).
Proof.
  revert a. induction l as [|x l IH]; intros a; simpl.
  - f_equal. lia.
  - unfold add64 at 2. rewrite wrap64_add_l, IH. f_equal. lia.
Qed.

Lemma sum64_wrap (l : list Z) : sum64 l = wrap64 (sumZ l).
Proof. unfold sum64. change 0 with (wrap64 0) at 1. apply sum64_from. Qed.

Lemma sum64_range (l : list Z) : 0 <= sum64 l < 2 ^ 64.
Proof. rewrite sum64_wrap. apply wrap64_range. Qed.

(** The two branches with which [updateBalance] moves an aggregate amount
    to the same value: the aggregate plus the signed difference. *)
Lemma aggregate_delta (agg old new : Z) :
  (if decide (old < new) then add64 agg (sub64 new old)
   else sub64 agg (sub64 old new)) = wrap64 (agg + (new - old)).
Proof.
  destruct (decide (old < new)); unfold add64, sub64.
  - apply wrap64_add_r.
  - rewrite wrap64_sub_r. f_equal. lia.
Qed.

Lemma sumZ_insert {A : Type} (f : A -> Z) (l : list A) (i : nat) (x y : A) :
  l !! i = Some x ->
  sumZ (map f (<[i := y]> l)) = sumZ (map f l) - f x + f y.
Proof.
  revert i. induction l as [|a l IH]; intros [|i] Hi; simplify_eq/=.
  - lia.
  - rewrite (IH i Hi). lia.
Qed.


Lemma sumZ_app (l1 l2 : list Z) : sumZ (l1 ++ l2) = sumZ l1 + sumZ l2.
Proof. induction l1 as [|a l1 IH]; simpl; [|rewrite IH]; lia. Qed.

(** ** Rules for [preserves] *)

Section preserves.
Context (P : WalletGreen -> Prop).

Lemma preserves_ret {A : Type} (a : A) : preserves P (mret a).
Proof. intros s Hs. exact Hs. Qed.

Lemma preserves_throw {A : Type} (e : error.t) : preserves P (throw (A := A) e).
Proof. intros s Hs. exact Hs. Qed.

Lemma preserves_gets {A : Type} (f : WalletGreen -> A) : preserves P (gets f).
Proof. intros s Hs. exact Hs. Qed.

Lemma preserves_lift {A : Type} (r : result A) : preserves P (lift r).
Proof. intros s Hs. exact Hs. Qed.

Lemma preserves_reads {A : Type} (f : WalletGreen -> result A) : preserves P (reads f).
Proof. intros s Hs. exact Hs. Qed.

Lemma preserves_throw_if (cond : bool) (e : error.t) : preserves P (throw_if cond e).
Proof. intros s Hs. destruct cond; exact Hs. Qed.

Lemma preserves_throwIfNotInitialized : preserves P throwIfNotInitialized.
Proof. intros s Hs. unfold throwIfNotInitialized. case_decide; exact Hs. Qed.

Lemma preserves_throwIfStopped : preserves P throwIfStopped.
Proof. intros s Hs. unfold throwIfStopped. destruct (m_stopped s); exact Hs. Qed.

Lemma preserves_modify (f : WalletGreen -> WalletGreen) :
  (forall s, P s -> P (f s)) -> preserves P (modify f).
Proof. intros Hf s Hs. apply Hf, Hs. Qed.

Lemma preserves_bind {A B : Type} (m : M A) (f : A -> M B) :
  preserves P m -> (forall a, preserves P (f a)) -> preserves P (m ≫= f).
Proof.
  intros Hm Hf s Hs. unfold mbind, M_bind.
  specialize (Hm s Hs). destruct (m s) as [[a|e] s']; simpl in *.
  - apply Hf, Hm.
  - exact Hm.
Qed.

Lemma preserves_try_catch_rethrow {A : Type} (body : M A) (handler : M unit) :
  preserves P body -> preserves P handler ->
  preserves P (try_catch_rethrow body handler).
Proof.
  intros Hb Hh s Hs. unfold try_catch_rethrow.
  specialize (Hb s Hs). destruct (body s) as [[a|e] s']; simpl in *; [exact Hb|].
  specialize (Hh s' Hb). destruct (handler s') as [[u|e'] s'']; exact Hh.
Qed.

Lemma preserves_for_each {A : Type} (l : list A) (body : A -> M unit) :
  (forall x, preserves P (body x)) -> preserves P (for_each l body).
Proof.
  intros Hb. induction l as [|x l IH]; simpl.
  - apply preserves_ret.
  - apply preserves_bind; [apply Hb | intros _; exact IH].
Qed.

End preserves.

(** Splits a member function into its statements; what is left are the
    [modify] steps that write a member the property reads. *)
Create HintDb wallet_inv.

Ltac preserves_step :=
  first
    [ solve [auto 2 with wallet_inv nocore]
    | apply preserves_ret | apply preserves_throw | apply preserves_gets
    | apply preserves_lift | apply preserves_reads | apply preserves_throw_if
    | apply preserves_throwIfNotInitialized | apply preserves_throwIfStopped
    | apply preserves_bind; [|intros ?]
    | apply preserves_try_catch_rethrow
    | apply preserves_for_each; intros ?
    | match goal with
      | |- preserves _ (modify _) => apply preserves_modify; intros ? ?; try assumption
      | |- preserves _ (match ?x with _ => _ end) => destruct x
      | |- preserves _ (if ?x then _ else _) => destruct x
      | |- preserves _ (let '(_, _) := ?x in _) => destruct x
      | |- preserves _ (fun _ => _) =>
          intros ? ?; simpl; repeat (case_match; simpl); try assumption
      end ].

Ltac preserves_auto := repeat preserves_step.

(** Reads a goal about the object after [m] as a [preserves] goal. *)
Ltac as_preserves :=
  match goal with
  | H : ?P ?s |- ?P (snd (?m ?s)) => revert s H; change (preserves P m)
  end.

(** ** The balance accountant *)

(** C10: a container handle that matches no record of the registry makes
    [updateBalance] return at once: the object, with its cached balances,
    aggregate balances and indices, is left exactly as it was. *)
Theorem updateBalance_unknown_container (env : Env) (c : Container) (s : WalletGreen) :
  Forall (fun w => container w <> c) (m_walletsContainer s) ->
  updateBalance env c s = s.
Proof.
  intros Hnone. unfold updateBalance, find_wallet_by_container.
  destruct (list_find _ _) as [[i w]|] eqn:Hfind; [|reflexivity].
  apply list_find_Some in Hfind as (Hi & Hc & _).
  rewrite Forall_forall in Hnone.
  exfalso. apply (Hnone w); [|exact Hc].
  apply list_elem_of_lookup. exists i. exact Hi.
Qed.

Lemma updateBalance_unknown_container_witness :
  Forall (fun w => container w <> 999%N) (m_walletsContainer example_wallet) /\
  updateBalance example_env 999 example_wallet = example_wallet.
Proof.
  assert (H : Forall (fun w => container w <> 999%N) (m_walletsContainer example_wallet)).
  { vm_compute. repeat constructor; discriminate. }
  split; [exact H|].
  exact (updateBalance_unknown_container example_env 999 example_wallet H).
Defined.

(** What [updateBalance] writes when it finds the record: the aggregates
    move by the signed difference between the new and the old cached value. *)
Lemma updateBalance_found (env : Env) (c : Container) (s : WalletGreen)
    (i : nat) (it : WalletRecord) :
  find_wallet_by_container c (m_walletsContainer s) = Some (i, it) ->
  let actual := updateBalance_actual env c it s in
  let pending := updateBalance_pending env c s in
  updateBalance env c s =
    set_walletsContainer
      (<[i := mkWalletRecord (self it) (spendPublicKey it) (spendSecretKey it)
                (container it) pending actual (creationTimestamp it)]>
         (m_walletsContainer s))
      (set_pendingBalance (wrap64 (m_pendingBalance s + (pending - pendingBalance it)))
         (set_actualBalance (wrap64 (m_actualBalance s + (actual - actualBalance it))) s)).
Proof.
  intros Hfind. simpl. unfold updateBalance. rewrite Hfind.
  rewrite !aggregate_delta. reflexivity.
Qed.

Lemma updateBalance_consistent (env : Env) (c : Container) (s : WalletGreen) :
  balances_consistent s -> balances_consistent (updateBalance env c s).
Proof.
  intros [Ha Hp].
  destruct (find_wallet_by_container c (m_walletsContainer s)) as [[i it]|] eqn:Hfind.
  - rewrite (updateBalance_found _ _ _ _ _ Hfind).
    apply list_find_Some in Hfind as (Hi & _ & _).
    split; simpl; rewrite sum64_wrap in *.
    + rewrite (sumZ_insert actualBalance _ _ _ _ Hi), Ha, wrap64_add_l. simpl.
      f_equal. lia.
    + rewrite (sumZ_insert pendingBalance _ _ _ _ Hi), Hp, wrap64_add_l. simpl.
      f_equal. lia.
  - unfold updateBalance. rewrite Hfind. split; assumption.
Qed.

Lemma updateBalance_at_consistent (env : Env) (p : WalletPtr) :
  preserves balances_consistent (updateBalance_at env p).
Proof.
  intros s Hs. unfold updateBalance_at.
  destruct (deref_wallet _ _) as [[? ?]|]; simpl.
  - apply updateBalance_consistent, Hs.
  - exact Hs.
Qed.

#[local] Hint Resolve updateBalance_consistent updateBalance_at_consistent : wallet_inv.

Lemma doTransfer_consistent (env : Env) (wallets : list WalletOuts)
    (destinations : list WalletTransfer) (fee mixIn : Z) (extra : string)
    (unlockTimestamp : Z) :
  preserves balances_consistent
    (doTransfer env wallets destinations fee mixIn extra unlockTimestamp).
Proof.
  unfold doTransfer, doTransfer_assemble, doTransfer_build, doTransfer_commit,
    requestMixinOuts, sendTransaction, insertOutgoingTransaction.
  preserves_auto; auto with wallet_inv.
Qed.

#[local] Hint Resolve doTransfer_consistent : wallet_inv.

(** Runs the statements of a member function on a given object. *)
Ltac run_M :=
  cbv beta iota zeta delta
    [mbind M_bind mret M_ret gets modify throw_if throw lift reads
     throwIfNotInitialized throwIfStopped try_catch_rethrow] in *.



Lemma clearCaches_consistent (s : WalletGreen) : balances_consistent (clearCaches s).
Proof. split; reflexivity. Qed.






Lemma balances_consistent_new (env : Env) : balances_consistent (WalletGreen_new env).
Proof. split; reflexivity. Qed.



(** ** Recomputing a balance twice *)

Lemma updateBalance_frame (env : Env) (c : Container) (s : WalletGreen) :
  m_state (updateBalance env c s) = m_state s /\
  m_stopped (updateBalance env c s) = m_stopped s /\
  m_spentOutputs (updateBalance env c s) = m_spentOutputs s /\
  m_unlockTransactionsJob (updateBalance env c s) = m_unlockTransactionsJob s /\
  m_transactions (updateBalance env c s) = m_transactions s /\
  m_transfers (updateBalance env c s) = m_transfers s /\
  m_change (updateBalance env c s) = m_change s /\
  m_events (updateBalance env c s) = m_events s /\
  m_node (updateBalance env c s) = m_node s /\
  m_heap (updateBalance env c s) = m_heap s.
Proof.
  unfold updateBalance.
  destruct (find_wallet_by_container c (m_walletsContainer s)) as [[i it]|];
    repeat split; reflexivity.
Qed.

(** With the same spent outputs, change ledger and first container, the
    values that [updateBalance] computes are the same. *)
Lemma updateBalance_actual_ext (env : Env) (c : Container) (w w' : WalletRecord)
    (s s' : WalletGreen) :
  self w' = self w -> m_spentOutputs s' = m_spentOutputs s ->
  updateBalance_actual env c w' s' = updateBalance_actual env c w s.
Proof.
  intros Hself Hsp. unfold updateBalance_actual, countSpentBalance.
  rewrite Hself, Hsp. reflexivity.
Qed.

Lemma updateBalance_pending_ext (env : Env) (c : Container) (s s' : WalletGreen) :
  container <$> head (m_walletsContainer s') = container <$> head (m_walletsContainer s) ->
  m_change s' = m_change s ->
  updateBalance_pending env c s' = updateBalance_pending env c s.
Proof.
  intros Hhead Hch. unfold updateBalance_pending, change_sum. rewrite Hch.
  destruct (m_walletsContainer s') as [|w0' ?], (m_walletsContainer s) as [|w0 ?];
    simplify_eq/=; try reflexivity.
  rewrite Hhead. reflexivity.
Qed.

Lemma head_insert_container (ws : list WalletRecord) (i : nat) (w w' : WalletRecord) :
  ws !! i = Some w -> container w' = container w ->
  container <$> head (<[i := w']> ws) = container <$> head ws.
Proof.
  intros Hi Hc. destruct ws as [|w0 ws], i as [|i]; simplify_eq/=; try reflexivity.
  rewrite Hc. reflexivity.
Qed.

(** Replacing a record by one with the same container does not move what
    a search by container finds. *)
Lemma find_wallet_by_container_insert (c : Container) (ws : list WalletRecord)
    (i j : nat) (w w' x : WalletRecord) :
  ws !! i = Some w -> container w' = container w ->
  find_wallet_by_container c (<[i := w']> ws) = Some (j, x) ->
  exists y, find_wallet_by_container c ws = Some (j, y) /\
            x = (if decide (j = i) then w' else y).
Proof.
  unfold find_wallet_by_container. intros Hi Hc Hfind.
  apply list_find_Some in Hfind as (Hj & Hx & Hmin).
  destruct (decide (j = i)) as [->|Hne].
  - rewrite list_lookup_insert_eq in Hj by (eapply lookup_lt_Some; exact Hi).
    simplify_eq. exists w. split; [|reflexivity].
    apply list_find_Some. split_and!; [exact Hi|congruence|].
    intros k y Hk Hlt. apply (Hmin k y); [|exact Hlt].
    rewrite list_lookup_insert_ne by lia. exact Hk.
  - rewrite list_lookup_insert_ne in Hj by lia.
    exists x. split; [|reflexivity].
    apply list_find_Some. split_and!; [exact Hj|exact Hx|].
    intros k y Hk Hlt. destruct (decide (k = i)) as [->|Hki].
    + simplify_eq. rewrite <- Hc. apply (Hmin i w'); [|exact Hlt].
      apply list_lookup_insert_eq. eapply lookup_lt_Some; exact Hi.
    + apply (Hmin k y); [|exact Hlt].
      rewrite list_lookup_insert_ne by lia. exact Hk.
Qed.

Lemma updateBalance_settled_id (env : Env) (c : Container) (s : WalletGreen) :
  balance_settled env c s -> updateBalance env c s = s.
Proof.
  intros Hset.
  destruct (find_wallet_by_container c (m_walletsContainer s)) as [[i it]|] eqn:Hfind.
  - rewrite (updateBalance_found _ _ _ _ _ Hfind).
    destruct (Hset i it Hfind) as (Ha & Hp & Hra & Hrp).
    apply list_find_Some in Hfind as (Hi & _ & _).
    rewrite <- Ha, <- Hp, !Z.sub_diag, !Z.add_0_r, !wrap64_small by assumption.
    replace (mkWalletRecord _ _ _ _ _ _ _) with it by (destruct it; reflexivity).
    rewrite list_insert_id by exact Hi.
    destruct s; reflexivity.
  - unfold updateBalance. rewrite Hfind. reflexivity.
Qed.

Lemma updateBalance_keeps_settled (env : Env) (c c' : Container) (s : WalletGreen) :
  c = c' \/ balance_settled env c s -> balance_settled env c (updateBalance env c' s).
Proof.
  intros Hcase.
  destruct (find_wallet_by_container c' (m_walletsContainer s)) as [[i' it']|] eqn:Hfind'.
  2:{ destruct Hcase as [->|Hset].
      - intros i it Hfind. unfold updateBalance in Hfind. rewrite Hfind' in Hfind.
        congruence.
      - unfold updateBalance. rewrite Hfind'. exact Hset. }
  intros i it Hfind.
  rewrite (updateBalance_found _ _ _ _ _ Hfind') in Hfind |- *. simpl in Hfind |- *.
  pose proof Hfind' as Hf'. apply list_find_Some in Hf' as (Hi' & Hc' & _).
  set (w' := mkWalletRecord _ _ _ _ _ _ _) in *.
  assert (Hcw : container w' = container it') by reflexivity.
  destruct (find_wallet_by_container_insert _ _ _ _ _ _ _ Hi' Hcw Hfind)
    as (y & Hy & ->).
  assert (Hact : forall w0, self w0 = self y ->
            updateBalance_actual env c w0
              (set_walletsContainer (<[i':=w']> (m_walletsContainer s))
                 (set_pendingBalance (wrap64 (m_pendingBalance s +
                      (updateBalance_pending env c' s - pendingBalance it')))
                    (set_actualBalance (wrap64 (m_actualBalance s +
                      (updateBalance_actual env c' it' s - actualBalance it'))) s)))
            = updateBalance_actual env c y s).
  { intros w0 Hw0. apply updateBalance_actual_ext; [exact Hw0|reflexivity]. }
  assert (Hpen : updateBalance_pending env c
              (set_walletsContainer (<[i':=w']> (m_walletsContainer s))
                 (set_pendingBalance (wrap64 (m_pendingBalance s +
                      (updateBalance_pending env c' s - pendingBalance it')))
                    (set_actualBalance (wrap64 (m_actualBalance s +
                      (updateBalance_actual env c' it' s - actualBalance it'))) s)))
            = updateBalance_pending env c s).
  { apply updateBalance_pending_ext; [|reflexivity]. simpl.
    eapply head_insert_container; eassumption. }
  rewrite Hpen.
  destruct (decide (i = i')) as [->|Hii].
  - assert (y = it') as ->.
    { apply list_find_Some in Hy as (Hyi & _ & _). congruence. }
    assert (c = c') as ->.
    { apply list_find_Some in Hy as (_ & Hyc & _). congruence. }
    rewrite (Hact w') by reflexivity.
    split_and!; try apply wrap64_range; reflexivity.
  - rewrite (Hact y) by reflexivity.
    destruct Hcase as [->|Hset].
    + exfalso. apply Hii.
      apply list_find_Some in Hy as (Hyi & Hyc & Hymin).
      pose proof Hfind' as (Hi2 & Hc2 & Hmin2)%list_find_Some.
      destruct (Nat.lt_trichotomy i i') as [Hlt|[Heq|Hgt]]; [|exact Heq|].
      * exfalso. exact (Hmin2 _ _ Hyi Hlt Hyc).
      * exfalso. exact (Hymin _ _ Hi2 Hgt Hc2).
    + destruct (Hset i y Hy) as (Ha & Hp & _ & _).
      split_and!; try apply wrap64_range; assumption.
Qed.

Lemma fold_updateBalance_distinct (env : Env) (l seen : list N) (s : WalletGreen) :
  (forall c, c ∈ seen -> balance_settled env c s) ->
  fold_left (fun s c => updateBalance env c s) l s =
  fold_left (fun s c => updateBalance env c s) (distinct_from seen l) s.
Proof.
  revert seen s. induction l as [|c l IH]; intros seen s Hseen; simpl; [reflexivity|].
  case_decide as Hin.
  - rewrite updateBalance_settled_id by (apply Hseen, Hin). apply IH, Hseen.
  - simpl. apply IH. intros c0 Hc0. apply updateBalance_keeps_settled.
    apply elem_of_cons in Hc0 as [->|Hc0]; [left; reflexivity|right; apply Hseen, Hc0].
Qed.

Lemma distinct_from_spec (seen l : list N) :
  NoDup (distinct_from seen l) /\
  forall c, c ∈ distinct_from seen l <-> c ∈ l /\ c ∉ seen.
Proof.
  revert seen. induction l as [|x l IH]; intros seen; simpl.
  - split; [constructor|]. intros c. rewrite !elem_of_nil. tauto.
  - case_decide as Hin.
    + destruct (IH seen) as [Hnd Hmem]. split; [exact Hnd|].
      intros c. rewrite Hmem, elem_of_cons. split; [tauto|].
      intros [[->|Hc] Hns]; tauto.
    + destruct (IH (x :: seen)) as [Hnd Hmem]. split.
      * constructor; [|exact Hnd]. rewrite Hmem, elem_of_cons. tauto.
      * intros c. rewrite !elem_of_cons, Hmem, elem_of_cons.
        destruct (decide (c = x)) as [->|Hne]; tauto.
Qed.

(** ** The unlock schedule *)

Lemma jobs_upper_bound_sorted (height : Z) (jobs : list UnlockTransactionJob) :
  jobs_sorted jobs ->
  take (jobs_upper_bound height jobs) jobs =
    filter (fun j => job_blockHeight j <= height) jobs /\
  drop (jobs_upper_bound height jobs) jobs =
    filter (fun j => ~ job_blockHeight j <= height) jobs.
Proof.
  unfold jobs_sorted. induction 1 as [|j jobs Hsorted IH Hall]; simpl; [done|].
  destruct IH as [IHt IHd]. case_decide as Hle.
  - simpl. rewrite filter_cons_True, filter_cons_False by tauto. by rewrite IHt, IHd.
  - simpl. assert (Hgt : Forall (fun x => ~ job_blockHeight x <= height) jobs).
    { eapply Forall_impl; [exact Hall|]. simpl. intros x Hx. lia. }
    rewrite filter_cons_False, filter_cons_True by tauto. split.
    + clear -Hgt. induction Hgt as [|x l Hx _ IH]; [done|].
      by rewrite filter_cons_False.
    + f_equal. clear -Hgt. induction Hgt as [|x l Hx _ IH]; [done|].
      rewrite filter_cons_True by done. by f_equal.
Qed.

Lemma fold_left_fmap {A B C : Type} (f : A -> B) (g : C -> B -> C) (l : list A) (c : C) :
  fold_left g (map f l) c = fold_left (fun c a => g c (f a)) l c.
Proof. revert c. induction l as [|a l IH]; intros c; simpl; [done|]. apply IH. Qed.

(** C4: on a schedule ordered by height, [unlockBalances] handles exactly
    the jobs whose height is at most [height]: the object it leaves is the
    one obtained by running the balance accountant once for each distinct
    container of those jobs, then erasing those jobs from the schedule
    (the others stay, in order), then enqueueing BALANCE_UNLOCKED; and the
    progress callback of an initialized wallet is this flush. *)
Theorem unlockBalances_flush (env : Env) (height : Z) (s : WalletGreen) :
  jobs_sorted (m_unlockTransactionsJob s) ->
  let due := filter (fun j => job_blockHeight j <= height) (m_unlockTransactionsJob s) in
  let containers := distinct (map job_container due) in
  (NoDup containers /\
   forall c, c ∈ containers <-> exists j, j ∈ due /\ job_container j = c) /\
  unlockBalances env height s =
    pushEvent BALANCE_UNLOCKED
      (set_unlockTransactionsJob
         (filter (fun j => ~ job_blockHeight j <= height) (m_unlockTransactionsJob s))
         (fold_left (fun s c => updateBalance env c s) containers s)) /\
  (m_state s <> WalletState.NOT_INITIALIZED ->
   onSynchronizationProgressUpdated env height s = unlockBalances env height s).
Proof.
  intros Hsorted due containers.
  destruct (jobs_upper_bound_sorted height _ Hsorted) as [Htake Hdrop].
  split_and!.
  - apply distinct_from_spec.
  - intros c. unfold containers, distinct.
    rewrite (proj2 (distinct_from_spec [] _)), list_elem_of_fmap, elem_of_nil.
    split.
    + intros [(j & -> & Hj) _]. exists j. done.
    + intros (j & Hj & <-). split; [exists j; done|tauto].
  - unfold unlockBalances. rewrite Htake, Hdrop. fold due. do 2 f_equal.
    rewrite <- (fold_left_fmap job_container (fun s c => updateBalance env c s)).
    apply fold_updateBalance_distinct. intros c Hc. by apply elem_of_nil in Hc.
  - intros Hinit. unfold onSynchronizationProgressUpdated. by case_decide.
Qed.

Lemma unlockBalances_flush_witness :
  jobs_sorted (m_unlockTransactionsJob example_wallet_two_jobs) /\
  distinct (map job_container
              (filter (fun j => job_blockHeight j <= 10)
                 (m_unlockTransactionsJob example_wallet_two_jobs))) = [101%N] /\
  m_unlockTransactionsJob (unlockBalances example_env 10 example_wallet_two_jobs) = [] /\
  m_events (unlockBalances example_env 10 example_wallet_two_jobs) =
    [TRANSACTION_CREATED 0; TRANSACTION_CREATED 1; BALANCE_UNLOCKED].
Proof.
  assert (Hsorted : jobs_sorted (m_unlockTransactionsJob example_wallet_two_jobs)).
  { vm_compute. repeat constructor; discriminate. }
  split; [exact Hsorted|].
  destruct (unlockBalances_flush example_env 10 example_wallet_two_jobs Hsorted)
    as (_ & -> & _).
  vm_compute. repeat split.
Defined.

(** ** The transaction-updated callback *)



Lemma find_transaction_alter (h : Hash) (txs : list WalletTransaction) (i : nat)
    (tx : WalletTransaction) (f : WalletTransaction -> WalletTransaction) :
  (forall x, hash (f x) = hash x) ->
  find_transaction h txs = Some (i, tx) ->
  find_transaction h (alter f i txs) = Some (i, f tx).
Proof.
  unfold find_transaction. intros Hf (Hi & Hh & Hmin)%list_find_Some.
  apply list_find_Some. split_and!.
  - rewrite list_lookup_alter_eq, Hi. reflexivity.
  - rewrite Hf. exact Hh.
  - intros j y Hj Hlt. rewrite list_lookup_alter_ne in Hj by lia. eauto.
Qed.

Lemma find_transaction_push_back (tx : WalletTransaction) (txs : list WalletTransaction) :
  find_transaction (hash tx) txs = None ->
  transactions_push_back tx txs = txs ++ [tx] /\
  find_transaction (hash tx) (txs ++ [tx]) = Some (length txs, tx).
Proof.
  unfold find_transaction, transactions_push_back. intros Hnone.
  pose proof Hnone as Hall%list_find_None. split.
  - case_decide as Hex; [|reflexivity].
    apply Exists_exists in Hex as (x & Hx & Hhx).
    rewrite Forall_forall in Hall. destruct (Hall x Hx Hhx).
  - rewrite list_find_app_r by exact Hnone. simpl.
    rewrite decide_True by reflexivity. simpl. reflexivity.
Qed.

(** The ledger step of the callback writes [m_transactions] and
    [m_transfers] only, leaves the transaction known, and throws only when
    the container has no record in the registry. *)
Lemma transactionUpdated_ledger_frame (env : Env) (c : Container)
    (info : TransactionInformation) (txBalance : Z) (s s' : WalletGreen)
    (r : result WalletEvent) :
  transactionUpdated_ledger env c info txBalance s = (r, s') ->
  (m_state s' = m_state s /\
   m_walletsContainer s' = m_walletsContainer s /\
   m_actualBalance s' = m_actualBalance s /\
   m_pendingBalance s' = m_pendingBalance s /\
   m_spentOutputs s' = m_spentOutputs s /\
   m_change s' = m_change s /\
   m_unlockTransactionsJob s' = m_unlockTransactionsJob s /\
   m_events s' = m_events s) /\
  transactionExists (info_transactionHash info) s' = true /\
  (forall e, r = Throw e ->
     find_wallet_by_container c (m_walletsContainer s) = None /\
     transactionExists (info_transactionHash info) s = false) /\
  (transactionExists (info_transactionHash info) s = true ->
   exists id tx,
     find_transaction (info_transactionHash info) (m_transactions s) = Some (id, tx) /\
     r = Ok (TRANSACTION_UPDATED id) /\
     m_transfers s' = m_transfers s /\
     m_transactions s' =
       alter (fun t => with_state WalletTransactionState.SUCCEEDED
                         (with_blockHeight (info_blockHeight info) t))
         id (m_transactions s)).
Proof.
  assert (Hknown : forall st, transactionExists (info_transactionHash info) st = true <->
            is_Some (find_transaction (info_transactionHash info) (m_transactions st))).
  { intros st. unfold transactionExists. apply bool_decide_eq_true. }
  unfold transactionUpdated_ledger, updateTransactionHeight, getTransactionId,
    insertIncomingTransaction, getWalletRecord_container.
  run_M. intros Hrun.
  destruct (find_transaction (info_transactionHash info) (m_transactions s))
    as [[id tx]|] eqn:Hfind.
  - assert (Hk : transactionExists (info_transactionHash info) s = true)
      by (apply Hknown; rewrite Hfind; eauto).
    rewrite Hk, Hfind in Hrun. simpl in Hrun.
    erewrite find_transaction_alter in Hrun by (first [exact Hfind | reflexivity]).
    simplify_eq. split_and!; try reflexivity.
    + apply Hknown. simpl.
      erewrite find_transaction_alter by (first [exact Hfind | reflexivity]). eauto.
    + intros e He. discriminate He.
    + intros _. exists id, tx. split_and!; reflexivity.
  - assert (Hk : transactionExists (info_transactionHash info) s = false).
    { destruct (transactionExists _ s) eqn:Hk; [|reflexivity].
      apply Hknown in Hk. rewrite Hfind in Hk. destruct Hk as [? Hk]. discriminate Hk. }
    rewrite Hk in Hrun.
    match type of Hrun with context [transactions_push_back ?t _] => set (tx := t) in * end.
    destruct (find_transaction_push_back tx (m_transactions s) Hfind) as [Hpb Hnew].
    simpl in Hrun. rewrite Hpb in Hrun.
    destruct (find_wallet_by_container c (m_walletsContainer s)) as [[j w]|] eqn:Hc;
      simpl in Hrun; simplify_eq.
    + split_and!; try reflexivity.
      * apply Hknown. simpl. change (info_transactionHash info) with (hash tx).
        rewrite Hnew. eauto.
      * intros e He. discriminate He.
      * intros Hk'. congruence.
    + split_and!; try reflexivity.
      * apply Hknown. simpl. change (info_transactionHash info) with (hash tx).
        rewrite Hnew. eauto.
      * intros e He. split; [reflexivity|exact Hk].
      * intros Hk'. congruence.
Qed.

Lemma balance_settled_ext (env : Env) (c : Container) (s s' : WalletGreen) :
  m_walletsContainer s' = m_walletsContainer s ->
  m_actualBalance s' = m_actualBalance s ->
  m_pendingBalance s' = m_pendingBalance s ->
  m_spentOutputs s' = m_spentOutputs s ->
  m_change s' = m_change s ->
  balance_settled env c s -> balance_settled env c s'.
Proof.
  intros Hw Ha Hp Hsp Hch Hset i it Hfind. rewrite Hw in Hfind.
  destruct (Hset i it Hfind) as (H1 & H2 & H3 & H4).
  rewrite Ha, Hp.
  rewrite (updateBalance_actual_ext env c it it s s') by (reflexivity || exact Hsp).
  rewrite (updateBalance_pending_ext env c s s') by (rewrite ?Hw; reflexivity || exact Hch).
  repeat split; first [assumption | apply H3 | apply H4].
Qed.



(** The callback of an initialized wallet, stage by stage. *)
Lemma transactionUpdated_initialized_run (env : Env) (c : Container) (h : Hash)
    (s : WalletGreen) :
  transactionUpdated_initialized env c h s =
    match container_getTransactionInformation env c h with
    | None => (Throw error.ASSERTION_FAILED, deleteSpentOutputs h s)
    | Some (info, txBalance) =>
        match transactionUpdated_ledger env c info txBalance (deleteSpentOutputs h s) with
        | (Ok event, s_b) =>
            (Ok tt, pushEvent event
                      (updateBalance env c (transactionUpdated_unlock env c h info s_b)))
        | (Throw e, s_b) => (Throw e, s_b)
        end
    end.
Proof.
  unfold transactionUpdated_initialized. run_M.
  destruct (container_getTransactionInformation env c h) as [[info txBalance]|];
    [|reflexivity].
  destruct (transactionUpdated_ledger env c info txBalance (deleteSpentOutputs h s))
    as [[event|e] s_b]; reflexivity.
Qed.


Lemma transactionUpdated_unlock_tables (env : Env) (c : Container) (h : Hash)
    (info : TransactionInformation) (s : WalletGreen) :
  m_change (transactionUpdated_unlock env c h info s) =
    (if decide (info_blockHeight info <> WALLET_UNCONFIRMED_TRANSACTION_HEIGHT env)
     then delete h (m_change s) else m_change s) /\
  m_unlockTransactionsJob (transactionUpdated_unlock env c h info s) =
    (if decide (info_blockHeight info <> WALLET_UNCONFIRMED_TRANSACTION_HEIGHT env)
     then jobs_insert (mkUnlockTransactionJob (unlock_height info) c h)
            (m_unlockTransactionsJob s)
     else m_unlockTransactionsJob s).
Proof. unfold transactionUpdated_unlock. case_decide; split; reflexivity. Qed.


(** The height of line 1027 is the sum reduced to 32 bits; the unlock time,
    a [uint64_t], enters through its low 32 bits. *)
Lemma unlock_height_wrap32 (info : TransactionInformation) :
  unlock_height info = wrap32 (info_blockHeight info + info_unlockTime info + 2).
Proof.
  unfold unlock_height, add32, wrap32, WALLET_SOFTLOCK_BLOCKS_COUNT.
  change (2 ^ 32) with 4294967296.
  Z.div_mod_to_equations. lia.
Qed.

(** C5, as the code has it: when an initialized wallet gets a
    [transactionUpdated] callback, the container knows the transaction and
    the callback returns normally, then for a confirmed block height the
    change-ledger entry of the hash is erased and the unlock schedule gets
    a job for that hash and container at height
    (blockHeight + unlockTime + 2) mod 2^32, placed after the jobs of at
    most that height, unless it already holds a job for that hash, in which
    case the schedule stays as it is; for the UNCONFIRMED height neither
    the change ledger nor the schedule changes. *)
Theorem transactionUpdated_unlock_job (env : Env) (c : Container) (h : Hash)
    (s s' : WalletGreen) (info : TransactionInformation) (txBalance : Z) :
  m_state s <> WalletState.NOT_INITIALIZED ->
  container_getTransactionInformation env c h = Some (info, txBalance) ->
  transactionUpdated env c h s = (Ok tt, s') ->
  let jobs := m_unlockTransactionsJob s in
  let height := wrap32 (info_blockHeight info + info_unlockTime info + 2) in
  if decide (info_blockHeight info <> WALLET_UNCONFIRMED_TRANSACTION_HEIGHT env)
  then
    m_change s' = delete h (m_change s) /\
    (Forall (fun j => job_transactionHash j <> h) jobs ->
     m_unlockTransactionsJob s' =
       take (jobs_upper_bound height jobs) jobs ++
       mkUnlockTransactionJob height c h :: drop (jobs_upper_bound height jobs) jobs) /\
    (Exists (fun j => job_transactionHash j = h) jobs ->
     m_unlockTransactionsJob s' = jobs)
  else
    m_change s' = m_change s /\ m_unlockTransactionsJob s' = jobs.
Proof.
  intros Hst Hinfo Hrun jobs height.
  unfold transactionUpdated in Hrun. rewrite decide_False in Hrun by exact Hst.
  rewrite transactionUpdated_initialized_run, Hinfo in Hrun.
  destruct (transactionUpdated_ledger env c info txBalance (deleteSpentOutputs h s))
    as [[event|e] s_b] eqn:Hledger; [|discriminate Hrun].
  destruct (transactionUpdated_ledger_frame _ _ _ _ _ _ _ Hledger)
    as ((_ & _ & _ & _ & _ & Fch & Fj & _) & _).
  injection Hrun as <-.
  pose proof (updateBalance_frame env c (transactionUpdated_unlock env c h info s_b))
    as (_ & _ & _ & Uj & _ & _ & Uch & _).
  destruct (transactionUpdated_unlock_tables env c h info s_b) as [Tc Tj].
  change (m_change (pushEvent event ?x)) with (m_change x).
  change (m_unlockTransactionsJob (pushEvent event ?x)) with (m_unlockTransactionsJob x).
  rewrite Uch, Uj, Tc, Tj, Fch, Fj, unlock_height_wrap32. fold height.
  change (m_change (deleteSpentOutputs h s)) with (m_change s).
  change (m_unlockTransactionsJob (deleteSpentOutputs h s)) with jobs.
  case_decide; [|split; reflexivity].
  split_and!; [reflexivity| |].
  - intros Hnone. unfold jobs_insert. rewrite decide_False; [reflexivity|].
    intros (x & Hx & Hhx)%Exists_exists. rewrite Forall_forall in Hnone.
    exact (Hnone x Hx Hhx).
  - intros Hsome. unfold jobs_insert. rewrite decide_True by exact Hsome. reflexivity.
Qed.

Lemma transactionUpdated_unlock_job_witness :
  m_state example_wallet <> WalletState.NOT_INITIALIZED /\
  m_change (transactionUpdated example_env 101 63 example_wallet).2 =
    delete 63%N (m_change example_wallet) /\
  m_unlockTransactionsJob (transactionUpdated example_env 101 63 example_wallet).2 =
    [mkUnlockTransactionJob 7 101 60; mkUnlockTransactionJob 8 101 63].
Proof.
  assert (H1 : m_state example_wallet <> WalletState.NOT_INITIALIZED)
    by (vm_compute; discriminate).
  assert (H2 : container_getTransactionInformation example_env 101 63 =
               Some (mkTransactionInformation 63 6 900100 0 20 10 EmptyString, 10))
    by reflexivity.
  assert (H3 : transactionUpdated example_env 101 63 example_wallet =
               (Ok tt, (transactionUpdated example_env 101 63 example_wallet).2))
    by (vm_compute; reflexivity).
  pose proof (transactionUpdated_unlock_job _ _ _ _ _ _ _ H1 H2 H3) as H.
  cbv zeta in H. rewrite decide_True in H by (vm_compute; discriminate).
  destruct H as (Hc & Hj & _).
  split; [exact H1|]. split; [exact Hc|].
  rewrite Hj; [vm_compute; reflexivity|].
  vm_compute. repeat constructor; discriminate.
Defined.

(** C5 as stated fails where the sum does not fit 32 bits: for transaction
    64, mined at height 100 with unlock time 2^32, the job is scheduled at
    height 102 and not at 100 + 2^32 + 2. *)
Lemma transactionUpdated_unlock_height_truncated :
  container_getTransactionInformation example_env 101 64 =
    Some (mkTransactionInformation 64 100 900200 4294967296 20 10 EmptyString, 10) /\
  (100 : Z) <> WALLET_UNCONFIRMED_TRANSACTION_HEIGHT example_env /\
  (transactionUpdated example_env 101 64 example_wallet).1 = Ok tt /\
  m_unlockTransactionsJob (transactionUpdated example_env 101 64 example_wallet).2 =
    [mkUnlockTransactionJob 7 101 60; mkUnlockTransactionJob 102 101 64] /\
  (102 : Z) <> 100 + 4294967296 + 2.
Proof. vm_compute. repeat split; discriminate. Qed.

(** ** The transaction-deleted callback *)

Lemma filter_Forall_not {A : Type} (P : A -> Prop) `{forall x, Decision (P x)} (l : list A) :
  Forall (fun x => ~ P x) (filter (fun x => ~ P x) l).
Proof.
  apply Forall_forall. intros x Hx. apply list_elem_of_filter in Hx. tauto.
Qed.

(** C6: in a wallet whose ledger is empty while it is not initialized (as
    after the constructor and after [shutdown]), the [transactionDeleted]
    callback for a hash that the ledger does not hold changes nothing and
    sends no event.  For a hash held by row [id] it removes the unlock job
    of the hash, the change-ledger entry and the spent outputs keyed by
    the hash as spending transaction, sets the row to CANCELLED at the
    UNCONFIRMED height (all other rows and fields as they were),
    recomputes the balance of the container on the tables so updated, and
    enqueues TRANSACTION_UPDATED with [id]. *)
Theorem transactionDeleted_spec (env : Env) (c : Container) (h : Hash) (s : WalletGreen) :
  (m_state s = WalletState.NOT_INITIALIZED -> m_transactions s = []) ->
  match find_transaction h (m_transactions s) with
  | None => transactionDeleted env c h s = s
  | Some (id, row) =>
      let s' := transactionDeleted env c h s in
      let tables :=
        set_transactions
          (<[id := with_blockHeight (WALLET_UNCONFIRMED_TRANSACTION_HEIGHT env)
                     (with_state WalletTransactionState.CANCELLED row)]>
             (m_transactions s))
          (set_spentOutputs
             (filter (fun o => spendingTransactionHash o <> h) (m_spentOutputs s))
             (set_change (delete h (m_change s))
                (set_unlockTransactionsJob
                   (filter (fun j => job_transactionHash j <> h)
                      (m_unlockTransactionsJob s)) s))) in
      s' = pushEvent (TRANSACTION_UPDATED id) (updateBalance env c tables) /\
      Forall (fun j => job_transactionHash j <> h) (m_unlockTransactionsJob s') /\
      m_change s' !! h = None /\
      Forall (fun o => spendingTransactionHash o <> h) (m_spentOutputs s') /\
      (exists row',
         m_transactions s' !! id = Some row' /\
         state row' = WalletTransactionState.CANCELLED /\
         blockHeight row' = WALLET_UNCONFIRMED_TRANSACTION_HEIGHT env /\
         hash row' = h) /\
      balance_settled env c s' /\
      m_events s' = m_events s ++ [TRANSACTION_UPDATED id]
  end.
Proof.
  intros Hwf. unfold transactionDeleted.
  destruct (find_transaction h (m_transactions s)) as [[id row]|] eqn:Hfind.
  2:{ case_decide; reflexivity. }
  rewrite decide_False.
  2:{ intros Hst. rewrite (Hwf Hst) in Hfind. discriminate Hfind. }
  pose proof Hfind as (Hid & Hh & _)%list_find_Some.
  cbv zeta.
  match goal with |- ?lhs = pushEvent _ (updateBalance _ _ ?tables) /\ _ =>
    set (tbl := tables); assert (Heq : lhs = pushEvent (TRANSACTION_UPDATED id)
                                               (updateBalance env c tbl)) end.
  { unfold tbl, deleteSpentOutputs, deleteUnlockTransactionJob. simpl.
    do 3 f_equal. apply list_eq. intros k.
    destruct (decide (k = id)) as [->|Hne].
    - rewrite list_lookup_alter_eq, list_lookup_insert_eq by (eapply lookup_lt_Some; eauto).
      rewrite Hid. reflexivity.
    - rewrite list_lookup_alter_ne, list_lookup_insert_ne by congruence. reflexivity. }
  rewrite Heq.
  pose proof (updateBalance_frame env c tbl) as (_ & _ & Usp & Uj & Utx & _ & Uch & Uev & _).
  change (m_unlockTransactionsJob (pushEvent ?e ?x)) with (m_unlockTransactionsJob x).
  change (m_change (pushEvent ?e ?x)) with (m_change x).
  change (m_spentOutputs (pushEvent ?e ?x)) with (m_spentOutputs x).
  change (m_transactions (pushEvent ?e ?x)) with (m_transactions x).
  change (m_events (pushEvent ?e ?x)) with (m_events x ++ [e]).
  rewrite Usp, Uj, Utx, Uch, Uev.
  split_and!.
  - reflexivity.
  - apply (filter_Forall_not (fun j => job_transactionHash j = h)).
  - apply lookup_delete_eq.
  - apply (filter_Forall_not (fun o => spendingTransactionHash o = h)).
  - eexists. split.
    + simpl. apply list_lookup_insert_eq. eapply lookup_lt_Some; eauto.
    + split_and!; try reflexivity. exact Hh.
  - apply (balance_settled_ext env c (updateBalance env c tbl)); try reflexivity.
    apply updateBalance_keeps_settled. left. reflexivity.
  - reflexivity.
Qed.

Lemma transactionDeleted_spec_witness :
  (m_state example_wallet = WalletState.NOT_INITIALIZED ->
   m_transactions example_wallet = []) /\
  m_events (transactionDeleted example_env 101 60 example_wallet) =
    [TRANSACTION_CREATED 0; TRANSACTION_UPDATED 0] /\
  transactionDeleted example_env 101 99 example_wallet = example_wallet.
Proof.
  assert (H : m_state example_wallet = WalletState.NOT_INITIALIZED ->
              m_transactions example_wallet = [])
    by (vm_compute; discriminate).
  split; [exact H|]. split.
  - pose proof (transactionDeleted_spec example_env 101 60 example_wallet H) as Hspec.
    replace (find_transaction 60%N (m_transactions example_wallet))
      with (Some (O, mkWalletTransaction WalletTransactionState.SUCCEEDED 900000 5 60
                        1000 10 900000 0 EmptyString)) in Hspec
      by (vm_compute; reflexivity).
    destruct Hspec as (_ & _ & _ & _ & _ & _ & ->). vm_compute. reflexivity.
  - pose proof (transactionDeleted_spec example_env 101 99 example_wallet H) as Hspec.
    replace (find_transaction 99%N (m_transactions example_wallet))
      with (@None (nat * WalletTransaction)) in Hspec by (vm_compute; reflexivity).
    exact Hspec.
Defined.

(** ** Output selection *)

(** The rule for the [while] loop of [selectTransfers]: what holds before
    the loop and is kept by every pass holds for the state it ends in. *)
Lemma select_loop_invariant (P : SelectState -> Prop) (env : Env) (s : WalletGreen)
    (neededMoney dustThreshold : Z) :
  (forall st st', P st -> select_step env s dustThreshold st = Some st' -> P st') ->
  forall fuel st st',
    P st -> select_loop env s neededMoney dustThreshold fuel st = Selected st' -> P st'.
Proof.
  intros Hstep. induction fuel as [|fuel IH]; intros st st' HP; simpl.
  - destruct (_ && _); [discriminate|]. intros [= <-]. exact HP.
  - destruct (_ && _); [|intros [= <-]; exact HP].
    destruct (select_step env s dustThreshold st) as [st1|] eqn:Hst1; [|discriminate].
    apply IH. eapply Hstep; eassumption.
Qed.

Lemma total_outs_lookup (wos : list WalletOuts) (i : nat) (wo : WalletOuts) :
  wos !! i = Some wo ->
  (total_outs (delete i wos) + length (outs wo) = total_outs wos)%nat /\
  forall wo', (total_outs (<[i := wo']> wos) + length (outs wo) =
               total_outs wos + length (outs wo'))%nat.
Proof.
  unfold total_outs. revert i. induction wos as [|a wos IH]; intros [|i] Hi; simplify_eq/=.
  - split; [lia|]. intros wo'. lia.
  - destruct (IH i Hi) as [Hd Hins]. split; [lia|]. intros wo'. specialize (Hins wo'). lia.
Qed.

(** Every pass of the loop erases exactly one output from the working set. *)
Lemma select_step_total_outs (env : Env) (s : WalletGreen) (dustThreshold : Z)
    (st st' : SelectState) :
  select_step env s dustThreshold st = Some st' ->
  S (total_outs (sel_walletOuts st')) = total_outs (sel_walletOuts st).
Proof.
  unfold select_step.
  destruct (sel_walletOuts st !! _) as [wo|] eqn:Hwo; [|discriminate].
  destruct (outs wo !! _) as [o|] eqn:Ho; [|discriminate].
  intros [= <-]. simpl.
  destruct (total_outs_lookup _ _ _ Hwo) as [Hdel Hins].
  pose proof (length_delete (outs wo) _ (mk_is_Some _ _ Ho)) as Hlen.
  pose proof (lookup_lt_Some _ _ _ Ho) as Hlt.
  destruct (delete _ (outs wo)) as [|o1 rest] eqn:Hrest.
  - simpl in Hlen. lia.
  - specialize (Hins (mkWalletOuts (wallet wo) (o1 :: rest))). simpl in *. lia.
Qed.

(** A pass fails only on a wallet without outputs. *)
Lemma select_step_nonempty (env : Env) (s : WalletGreen) (dustThreshold : Z)
    (st : SelectState) :
  sel_walletOuts st <> [] ->
  Forall (fun wo => outs wo <> []) (sel_walletOuts st) ->
  exists st', select_step env s dustThreshold st = Some st' /\
              Forall (fun wo => outs wo <> []) (sel_walletOuts st').
Proof.
  intros Hne Hall. unfold select_step, uniform.
  assert (Hlen : (0 < length (sel_walletOuts st))%nat).
  { destruct (sel_walletOuts st); [congruence|simpl; lia]. }
  destruct (lookup_lt_is_Some_2 (sel_walletOuts st)
              (crypto_rand env (sel_draws st) `mod` length (sel_walletOuts st))%nat)
    as [wo Hwo].
  { apply Nat.mod_upper_bound. lia. }
  rewrite Hwo.
  assert (Hwne : outs wo <> []).
  { rewrite Forall_forall in Hall. apply Hall. eapply list_elem_of_lookup_2, Hwo. }
  assert (Hlen' : (0 < length (outs wo))%nat).
  { destruct (outs wo); [congruence|simpl; lia]. }
  destruct (lookup_lt_is_Some_2 (outs wo)
              (crypto_rand env (S (sel_draws st)) `mod` length (outs wo))%nat)
    as [o Ho].
  { apply Nat.mod_upper_bound. lia. }
  rewrite Ho. eexists. split; [reflexivity|]. simpl.
  destruct (delete _ (outs wo)) as [|o1 rest] eqn:Hrest.
  - apply Forall_delete, Hall.
  - apply Forall_insert; [exact Hall|]. simpl. discriminate.
Qed.

Lemma select_loop_terminates (env : Env) (s : WalletGreen) (neededMoney dustThreshold : Z)
    (fuel : nat) (st : SelectState) :
  (total_outs (sel_walletOuts st) < fuel)%nat ->
  select_loop env s neededMoney dustThreshold fuel st <> OutOfFuel /\
  (Forall (fun wo => outs wo <> []) (sel_walletOuts st) ->
   select_loop env s neededMoney dustThreshold fuel st <> AssertionFailed).
Proof.
  revert st. induction fuel as [|fuel IH]; intros st Hfuel; [lia|]. simpl.
  destruct (bool_decide (sel_foundMoney st < neededMoney)); simpl; [|done].
  case_bool_decide as Hne; simpl; [|done].
  destruct (select_step env s dustThreshold st) as [st1|] eqn:Hst1.
  - pose proof (select_step_total_outs _ _ _ _ _ Hst1) as Htot.
    destruct (IH st1) as [Hf Ha]; [lia|]. split; [exact Hf|].
    intros Hall. apply Ha.
    destruct (select_step_nonempty env s dustThreshold st Hne Hall) as (st2 & Hst2 & Hall2).
    congruence.
  - split; [done|]. intros Hall.
    destruct (select_step_nonempty env s dustThreshold st Hne Hall) as (st2 & Hst2 & _).
    congruence.
Qed.

Lemma dust_count_snoc (dustThreshold : Z) (sel : list OutputToTransfer)
    (x : OutputToTransfer) :
  dust_count dustThreshold (sel ++ [x]) =
    (dust_count dustThreshold sel +
     (if bool_decide (out_amount (out x) <= dustThreshold)%Z then 1 else 0))%nat.
Proof.
  unfold dust_count. rewrite filter_app, length_app, filter_cons, filter_nil.
  case_bool_decide as Hd.
  - rewrite decide_True by exact Hd. reflexivity.
  - rewrite decide_False by exact Hd. reflexivity.
Qed.

(** What the selection keeps true of the dust it has taken: [n0] dust
    outputs were selected before, and [d0] says whether dust was allowed
    at entry. *)
Lemma select_step_dust (env : Env) (s : WalletGreen) (dustThreshold : Z)
    (d0 : bool) (n0 : nat) (st st' : SelectState) :
  let P := fun st =>
    (sel_dust st = true -> d0 = true /\ dust_count dustThreshold (sel_selectedTransfers st) = n0) /\
    (n0 <= dust_count dustThreshold (sel_selectedTransfers st) <= n0 + (if d0 then 1 else 0))%nat in
  P st -> select_step env s dustThreshold st = Some st' -> P st'.
Proof.
  intros P [Hd Hc]. unfold select_step.
  destruct (sel_walletOuts st !! _) as [wo|]; [|discriminate].
  destruct (outs wo !! _) as [o|]; [|discriminate].
  intros [= <-]. unfold P. cbn [sel_dust sel_selectedTransfers].
  assert (Hexcl : bool_decide (dustThreshold < out_amount o) = true ->
                  bool_decide (out_amount o <= dustThreshold) = false).
  { intros Hgt%bool_decide_eq_true. apply bool_decide_eq_false. lia. }
  destruct (isOutputUsed o s); cbn [negb andb]; [split; assumption|].
  destruct (bool_decide (dustThreshold < out_amount o)) eqn:Hbig; cbn [orb].
  - rewrite (Hexcl eq_refl), dust_count_snoc. cbn [out]. rewrite (Hexcl eq_refl).
    rewrite Nat.add_0_r. split; assumption.
  - destruct (sel_dust st) eqn:Hsd; [|split; assumption].
    destruct (Hd eq_refl) as [-> Hn].
    rewrite dust_count_snoc. cbn [out].
    destruct (bool_decide (out_amount o <= dustThreshold)); cbn [andb].
    + split; [discriminate|]. lia.
    + rewrite Nat.add_0_r. split; [intros _; split; [reflexivity|exact Hn]|lia].
Qed.

(** C7: whatever the random draws, the working set and the spent-output
    table, [selectTransfers] called with an empty [selectedTransfers] (as
    [doTransfer] calls it, with [dust] set to [mixIn == 0]) selects at most
    one output whose amount is at most the dust threshold, and none when
    dust is not allowed at entry.  The loop always ends, and the assertion
    on line 781 can fail only when the working set holds a wallet without
    outputs. *)
Theorem selectTransfers_dust_at_most_one (env : Env) (s : WalletGreen)
    (neededMoney : Z) (dust : bool) (dustThreshold : Z) (wallets : list WalletOuts) :
  match selectTransfers env s neededMoney dust dustThreshold wallets [] with
  | Selected st =>
      (dust_count dustThreshold (sel_selectedTransfers st) <= 1)%nat /\
      (dust = false -> dust_count dustThreshold (sel_selectedTransfers st) = O)
  | AssertionFailed => Exists (fun wo => outs wo = []) wallets
  | OutOfFuel => False
  end.
Proof.
  unfold selectTransfers.
  set (st0 := mkSelectState 0 dust wallets [] O).
  destruct (select_loop_terminates env s neededMoney dustThreshold
              (S (total_outs wallets)) st0) as [Hfuel Hassert]; [simpl; lia|].
  destruct (select_loop env s neededMoney dustThreshold (S (total_outs wallets)) st0)
    as [st| |] eqn:Hloop.
  - assert (HP :
      (sel_dust st = true ->
       dust = true /\ dust_count dustThreshold (sel_selectedTransfers st) = O) /\
      (0 <= dust_count dustThreshold (sel_selectedTransfers st)
         <= 0 + (if dust then 1 else 0))%nat).
    { eapply (select_loop_invariant _ env s neededMoney dustThreshold
                (select_step_dust env s dustThreshold dust O)); [|exact Hloop].
      simpl. split; [intros ->; split; reflexivity|unfold dust_count; simpl; lia]. }
    destruct HP as [Hd Hc].
    destruct (sel_dust st) eqn:Hsd; simpl.
    + destruct (Hd eq_refl) as [-> Hn].
      destruct (dust_sweep s dustThreshold (sel_walletOuts st)) as [it|]; simpl.
      * rewrite dust_count_snoc, Hn. split; [|discriminate].
        destruct (bool_decide _); lia.
      * rewrite Hn. split; [lia|discriminate].
    + split; [destruct dust; lia|]. intros ->. lia.
  - destruct (decide (Exists (fun wo => outs wo = []) wallets)) as [Hex|Hnex]; [exact Hex|].
    exfalso. apply Hassert; [|reflexivity].
    apply Forall_forall. intros wo Hwo Hempty. apply Hnex.
    apply Exists_exists. exists wo. split; assumption.
  - apply Hfuel. reflexivity.
Qed.
(** ** Errors a member function can throw *)

Section never_throws.
Context (e : error.t).












End never_throws.






(** ** The amount check of a transfer *)

Lemma sumZ_nonneg (l : list Z) : Forall (fun x => 0 <= x) l -> 0 <= sumZ l.
Proof. induction 1; simpl; lia. Qed.









(** ** The send pipeline *)

(** Nothing is written before the transaction is assembled. *)
Lemma doTransfer_assemble_read_only (env : Env) (wallets : list WalletOuts)
    (destinations : list WalletTransfer) (fee mixIn : Z) (extra : string)
    (unlockTimestamp : Z) (s : WalletGreen) :
  (doTransfer_assemble env wallets destinations fee mixIn extra unlockTimestamp s).2 = s.
Proof.
  assert (H : preserves (fun x => x = s)
    (doTransfer_assemble env wallets destinations fee mixIn extra unlockTimestamp)).
  { unfold doTransfer_assemble, doTransfer_build, requestMixinOuts. preserves_auto. }
  exact (H s eq_refl).
Qed.


(** [transfer] on an initialized, running wallet is [doTransfer] on the
    wallets that hold money. *)
Lemma transfer_running (env : Env) (destinations : list WalletTransfer) (fee mixIn : Z)
    (extra : string) (unlockTimestamp : Z) (s : WalletGreen) :
  m_state s = WalletState.INITIALIZED -> m_stopped s = false ->
  transfer env destinations fee mixIn extra unlockTimestamp s =
    doTransfer env (pickWalletsWithMoney env s) destinations fee mixIn extra
      unlockTimestamp s.
Proof.
  intros Hinit Hrun. unfold transfer. run_M.
  rewrite decide_True by exact Hinit. rewrite Hrun. reflexivity.
Qed.



(** ** Where selected outputs come from *)

Lemma offered_app (l1 l2 : list WalletOuts) : offered (l1 ++ l2) = offered l1 ++ offered l2.
Proof. unfold offered. rewrite map_app, concat_app. reflexivity. Qed.

Lemma offered_cons (wo : WalletOuts) (l : list WalletOuts) :
  offered (wo :: l) = map (fun o => mkOutputToTransfer o (wallet wo)) (outs wo) ++ offered l.
Proof. reflexivity. Qed.

(** Erasing the output picked in a pass of the loop takes exactly that
    output off the offer. *)
Lemma offered_step (wos : list WalletOuts) (wi oi : nat) (wo : WalletOuts)
    (o : TransactionOutputInformation) :
  wos !! wi = Some wo -> outs wo !! oi = Some o ->
  offered wos ≡ₚ
    mkOutputToTransfer o (wallet wo) ::
    offered (match delete oi (outs wo) with
             | [] => delete wi wos
             | _ => <[wi := mkWalletOuts (wallet wo) (delete oi (outs wo))]> wos
             end).
Proof.
  intros Hwo Ho.
  pose proof (delete_Permutation _ _ _ Ho) as Hperm.
  apply (Permutation_map (fun o => mkOutputToTransfer o (wallet wo))) in Hperm.
  assert (Hsplit : offered wos ≡ₚ
            mkOutputToTransfer o (wallet wo) ::
            map (fun o => mkOutputToTransfer o (wallet wo)) (delete oi (outs wo)) ++
            offered (take wi wos) ++ offered (drop (S wi) wos)).
  { rewrite <- (take_drop_middle wos wi wo Hwo) at 1.
    rewrite offered_app, offered_cons.
    etrans; [apply Permutation_app_head, Permutation_app_tail, Hperm|].
    simpl. symmetry. apply Permutation_cons_app.
    rewrite !app_assoc. apply Permutation_app_tail, Permutation_app_comm. }
  rewrite Hsplit. apply perm_skip.
  destruct (delete oi (outs wo)) as [|o1 rest] eqn:Hdel.
  - simpl. rewrite delete_take_drop, offered_app. reflexivity.
  - rewrite insert_take_drop by (eapply lookup_lt_Some; exact Hwo).
    rewrite offered_app, offered_cons. cbn [outs wallet].
    rewrite !app_assoc. apply Permutation_app_tail, Permutation_app_comm.
Qed.

(** What a pass of the loop keeps: the selected outputs and the outputs
    still on offer are, together, among the outputs offered at entry; no
    selected output is in the spent-output table; [foundMoney] is a
    [uint64_t]. *)
Lemma select_step_offered (env : Env) (s : WalletGreen) (dustThreshold : Z)
    (all : list OutputToTransfer) (st st' : SelectState) :
  let P := fun st =>
    sel_selectedTransfers st ++ offered (sel_walletOuts st) ⊆+ all /\
    Forall (fun o => isOutputUsed (out o) s = false) (sel_selectedTransfers st) /\
    0 <= sel_foundMoney st < 2 ^ 64 in
  P st -> select_step env s dustThreshold st = Some st' -> P st'.
Proof.
  intros P (Hsub & Hunused & Hrange). unfold select_step.
  destruct (sel_walletOuts st !! _) as [wo|] eqn:Hwo; [|discriminate].
  destruct (outs wo !! _) as [o|] eqn:Ho; [|discriminate].
  intros [= <-]. unfold P. cbn [sel_selectedTransfers sel_walletOuts sel_foundMoney].
  pose proof (offered_step _ _ _ _ _ Hwo Ho) as Hperm.
  set (wos' := match delete _ (outs wo) with [] => _ | _ => _ end) in *.
  destruct (isOutputUsed o s) eqn:Hused; cbn [negb andb].
  - split; [|split; [exact Hunused|exact Hrange]].
    etrans; [|exact Hsub]. apply submseteq_skips_l.
    rewrite Hperm. apply submseteq_cons. reflexivity.
  - destruct (bool_decide (dustThreshold < out_amount o) || sel_dust st).
    + split; [|split].
      * etrans; [|exact Hsub]. rewrite <- app_assoc. apply submseteq_skips_l.
        rewrite Hperm. reflexivity.
      * apply Forall_app. split; [exact Hunused|]. repeat constructor. exact Hused.
      * apply wrap64_range.
    + split; [|split; [exact Hunused|exact Hrange]].
      etrans; [|exact Hsub]. apply submseteq_skips_l.
      rewrite Hperm. apply submseteq_cons. reflexivity.
Qed.

Lemma dust_sweep_offered (s : WalletGreen) (dustThreshold : Z) (wos : list WalletOuts)
    (it : OutputToTransfer) :
  dust_sweep s dustThreshold wos = Some it ->
  it ∈ offered wos /\ isOutputUsed (out it) s = false.
Proof.
  induction wos as [|wo wos IH]; simpl; [discriminate|].
  destruct (list_find _ (outs wo)) as [[i o]|] eqn:Hfind.
  - intros [= <-]. apply list_find_Some in Hfind as (Hi & [_ Hused] & _).
    split; [|exact Hused]. rewrite offered_cons. apply elem_of_app. left.
    apply list_elem_of_fmap. exists o. split; [reflexivity|].
    eapply list_elem_of_lookup_2, Hi.
  - intros Hit. destruct (IH Hit) as [Hin Hused]. split; [|exact Hused].
    rewrite offered_cons. apply elem_of_app. right. exact Hin.
Qed.

(** The outputs that [selectTransfers] returns are among the outputs
    offered, each taken once, and none of them is in the spent-output
    table. *)
Lemma selectTransfers_offered (env : Env) (s : WalletGreen) (neededMoney : Z) (dust : bool)
    (dustThreshold : Z) (wallets : list WalletOuts) (st : SelectState) :
  selectTransfers env s neededMoney dust dustThreshold wallets [] = Selected st ->
  sel_selectedTransfers st ⊆+ offered wallets /\
  Forall (fun o => isOutputUsed (out o) s = false) (sel_selectedTransfers st) /\
  0 <= sel_foundMoney st < 2 ^ 64.
Proof.
  unfold selectTransfers.
  destruct (select_loop _ _ _ _ _ _) as [st1| |] eqn:Hloop; try discriminate.
  assert (HP : sel_selectedTransfers st1 ++ offered (sel_walletOuts st1) ⊆+ offered wallets /\
               Forall (fun o => isOutputUsed (out o) s = false) (sel_selectedTransfers st1) /\
               0 <= sel_foundMoney st1 < 2 ^ 64).
  { eapply (select_loop_invariant _ env s neededMoney dustThreshold
              (select_step_offered env s dustThreshold (offered wallets))); [|exact Hloop].
    simpl. split; [reflexivity|]. split; [constructor|lia]. }
  destruct HP as (Hsub & Hunused & Hrange).
  assert (Hsel : sel_selectedTransfers st1 ⊆+ offered wallets).
  { etrans; [|exact Hsub]. apply submseteq_inserts_r. reflexivity. }
  destruct (negb (sel_dust st1)); [intros [= <-]; split; [|split]; assumption|].
  destruct (dust_sweep s dustThreshold (sel_walletOuts st1)) as [it|] eqn:Hsweep.
  - intros [= <-]. cbn [sel_selectedTransfers sel_foundMoney].
    destruct (dust_sweep_offered _ _ _ _ Hsweep) as [Hin Hused].
    split; [|split].
    + etrans; [|exact Hsub]. apply submseteq_skips_l.
      apply singleton_submseteq_l. exact Hin.
    + apply Forall_app. split; [exact Hunused|]. repeat constructor. exact Hused.
    + apply wrap64_range.
  - intros [= <-]. split; [|split]; assumption.
Qed.

(** ** Marking outputs as spent *)



(** ** The balances of the wallets used *)







(** ** A successful transfer *)







Lemma countNeededMoney_range (destinations : list WalletTransfer) (fee n : Z) :
  countNeededMoney destinations fee = Ok n -> 0 <= n < 2 ^ 64.
Proof.
  unfold countNeededMoney.
  destruct (countNeededMoney_loop destinations 0) as [m|e]; [|discriminate].
  cbv zeta. case_decide; [discriminate|]. intros [= <-]. apply wrap64_range.
Qed.

Lemma doTransfer_validate_range (env : Env) (destinations : list WalletTransfer)
    (fee n : Z) :
  doTransfer_validate env destinations fee = Ok n -> 0 <= n < 2 ^ 64.
Proof.
  unfold doTransfer_validate. case_decide; [discriminate|].
  destruct (validateAddresses env destinations); [|discriminate].
  apply countNeededMoney_range.
Qed.







(** * Further properties *)

(** ** The balance accountant is idempotent *)

(** X1: recomputing the balance of a container a second time changes
    nothing: after [updateBalance] the cached balances of the record are the
    ones the container and the tables give, and a second [updateBalance] of
    the same container returns the object as it is. *)
Theorem updateBalance_idempotent (env : Env) (c : Container) (s : WalletGreen) :
  balance_settled env c (updateBalance env c s) /\
  updateBalance env c (updateBalance env c s) = updateBalance env c s.
Proof.
  assert (Hset : balance_settled env c (updateBalance env c s)).
  { apply updateBalance_keeps_settled. left. reflexivity. }
  split; [exact Hset|].
  apply updateBalance_settled_id, Hset.
Qed.

(** ** How the unlock schedule changes *)

(** The schedule is written in four ways only: it is cleared, jobs are
    erased by hash, a job is inserted through the indices, and a prefix is
    dropped.  A property of schedules kept by these four is kept by every
    call. *)
Lemma exec_schedule (Q : list UnlockTransactionJob -> Prop) :
  Q [] ->
  (forall h jobs, Q jobs -> Q (filter (fun j => job_transactionHash j <> h) jobs)) ->
  (forall j jobs, Q jobs -> Q (jobs_insert j jobs)) ->
  (forall n jobs, Q jobs -> Q (drop n jobs)) ->
  forall env c s,
    Q (m_unlockTransactionsJob s) -> Q (m_unlockTransactionsJob (exec env c s)).
Proof.
  intros Qnil Qfilter Qinsert Qdrop env c s.
  set (P := fun s => Q (m_unlockTransactionsJob s)).
  change (P s -> P (exec env c s)).
  assert (HU : forall env c s, P s -> P (updateBalance env c s)).
  { intros env' c' s' Hs'. unfold P.
    pose proof (updateBalance_frame env' c' s') as (_ & _ & _ & -> & _). exact Hs'. }
  assert (HF : forall env l s, P s ->
            P (fold_left (fun s it => updateBalance env (job_container it) s) l s)).
  { intros env' l. induction l as [|j l IH]; intros s' Hs'; simpl; [exact Hs'|].
    apply IH, HU, Hs'. }
  intros Hs.
  destruct c; simpl; try exact Hs.
  all: try (as_preserves;
         unfold initialize, shutdown, save, changePassword, getAddressCount, getAddress,
           createAddress, createAddress_key, deleteAddress, getActualBalance,
           getActualBalance_address, getPendingBalance, getPendingBalance_address,
           getTransactionCount, transfer, transfer_from, getEvent,
           doTransfer, doTransfer_assemble, doTransfer_build, doTransfer_commit,
           requestMixinOuts, sendTransaction, insertOutgoingTransaction,
           updateUsedWalletsBalances, updateBalance_at;
         preserves_auto).
  - unfold onSynchronizationProgressUpdated. case_decide; [exact Hs|].
    unfold unlockBalances, P. simpl. apply Qdrop.
    pose proof (HF env (take (jobs_upper_bound current (m_unlockTransactionsJob s))
                          (m_unlockTransactionsJob s)) s Hs) as Hfold.
    unfold P in Hfold.
    assert (Hsame : forall l s0,
              m_unlockTransactionsJob
                (fold_left (fun s1 it => updateBalance env (job_container it) s1) l s0) =
              m_unlockTransactionsJob s0).
    { induction l as [|j l IH]; intros s0; simpl; [reflexivity|].
      rewrite IH. apply updateBalance_frame. }
    rewrite Hsame in Hfold. exact Hfold.
  - intros s0 Hs0. unfold transactionUpdated.
    destruct (decide (m_state s0 = WalletState.NOT_INITIALIZED)) as [_|_]; [exact Hs0|].
    revert s0 Hs0. fold (preserves P (transactionUpdated_initialized env c transactionHash)).
    unfold transactionUpdated_initialized, transactionUpdated_ledger,
      updateTransactionHeight, getTransactionId, insertIncomingTransaction.
    preserves_auto; auto.
    unfold transactionUpdated_unlock. case_decide; [|assumption].
    unfold P. simpl. apply Qinsert. assumption.
  - unfold transactionDeleted. case_decide; [exact Hs|].
    destruct (find_transaction transactionHash (m_transactions s)) as [[id ?]|]; [|exact Hs].
    change (P (updateBalance env c
                 (set_transactions
                    (alter (fun tx =>
                         with_blockHeight (WALLET_UNCONFIRMED_TRANSACTION_HEIGHT env)
                           (with_state WalletTransactionState.CANCELLED tx))
                       id (m_transactions s))
                    (deleteSpentOutputs transactionHash
                       (set_change (delete transactionHash (m_change s))
                          (deleteUnlockTransactionJob transactionHash s)))))).
    apply HU. unfold P. simpl. apply Qfilter, Hs.
Qed.

Lemma jobs_insert_sorted (j : UnlockTransactionJob) (jobs : list UnlockTransactionJob) :
  jobs_sorted jobs -> jobs_sorted (jobs_insert j jobs).
Proof.
  intros Hsorted. unfold jobs_insert. case_decide; [exact Hsorted|].
  destruct (jobs_upper_bound_sorted (job_blockHeight j) jobs Hsorted) as [Htake Hdrop].
  pose proof Hsorted as Hsplit. unfold jobs_sorted in *.
  rewrite <- (take_drop (jobs_upper_bound (job_blockHeight j) jobs) jobs) in Hsplit.
  apply StronglySorted_app in Hsplit as (Hlr & Hl & Hr).
  apply StronglySorted_app. split; [|split; [exact Hl|]].
  - intros x y Hx [->|Hy]%elem_of_cons.
    + rewrite Htake in Hx. apply list_elem_of_filter in Hx as [Hx _]. exact Hx.
    + apply Hlr; assumption.
  - constructor; [exact Hr|]. rewrite Hdrop.
    apply Forall_forall. intros x [Hx _]%list_elem_of_filter. lia.
Qed.

Lemma filter_sorted (P : UnlockTransactionJob -> Prop) `{forall x, Decision (P x)}
    (jobs : list UnlockTransactionJob) :
  jobs_sorted jobs -> jobs_sorted (filter P jobs).
Proof.
  unfold jobs_sorted. induction 1 as [|j jobs Hsorted IH Hall]; [constructor|].
  rewrite filter_cons. case_decide; [|exact IH].
  constructor; [exact IH|].
  apply Forall_forall. intros x [_ Hx]%list_elem_of_filter.
  rewrite Forall_forall in Hall. apply Hall, Hx.
Qed.

Lemma drop_sorted (n : nat) (jobs : list UnlockTransactionJob) :
  jobs_sorted jobs -> jobs_sorted (drop n jobs).
Proof.
  unfold jobs_sorted. intros Hsorted. revert n.
  induction Hsorted as [|j jobs Hsorted IH Hall]; intros [|n]; simpl;
    [constructor|constructor|constructor; assumption|apply IH].
Qed.

(** The hashes of the jobs of a schedule. *)
Lemma jobs_insert_hashes (j : UnlockTransactionJob) (jobs : list UnlockTransactionJob) :
  NoDup (map job_transactionHash jobs) ->
  NoDup (map job_transactionHash (jobs_insert j jobs)).
Proof.
  intros Hnd. unfold jobs_insert. case_decide as Hex; [exact Hnd|].
  rewrite <- (take_drop (jobs_upper_bound (job_blockHeight j) jobs) jobs) in Hnd, Hex.
  rewrite map_app in Hnd |- *. simpl.
  apply NoDup_app in Hnd as (Hl & Hlr & Hr).
  apply NoDup_app. split_and!; [exact Hl| |].
  - intros x Hx [->|Hin]%elem_of_cons; [|exact (Hlr x Hx Hin)].
    apply Hex, Exists_exists.
    apply list_elem_of_fmap in Hx as (y & Hy & Hin).
    exists y. split; [apply elem_of_app; left; exact Hin|congruence].
  - apply NoDup_cons. split; [|exact Hr].
    intros Hx. apply Hex, Exists_exists.
    apply list_elem_of_fmap in Hx as (y & Hy & Hin).
    exists y. split; [apply elem_of_app; right; exact Hin|congruence].
Qed.

Lemma NoDup_fmap_sublist {A B : Type} (f : A -> B) (l k : list A) :
  sublist l k -> NoDup (map f k) -> NoDup (map f l).
Proof.
  intros Hsub Hnd. eapply sublist_NoDup; [exact Hnd|].
  apply (fmap_sublist f _ _ Hsub).
Qed.

(** X2: every public operation and every callback keeps the unlock schedule
    ordered by block height, which is what [unlockBalances] relies on when
    it takes the jobs up to [upper_bound(height)], and keeps at most one job
    per transaction hash. *)
Theorem unlock_schedule_sorted (history : list (Env * call)) (s : WalletGreen) :
  jobs_sorted (m_unlockTransactionsJob s) ->
  NoDup (map job_transactionHash (m_unlockTransactionsJob s)) ->
  jobs_sorted (m_unlockTransactionsJob (run history s)) /\
  NoDup (map job_transactionHash (m_unlockTransactionsJob (run history s))).
Proof.
  revert s. unfold run. induction history as [|[env c] history IH]; intros s Hsorted Hnd;
    simpl; [split; assumption|].
  apply IH.
  - apply (exec_schedule jobs_sorted); try assumption.
    + constructor.
    + intros h jobs. apply filter_sorted.
    + apply jobs_insert_sorted.
    + apply drop_sorted.
  - apply (exec_schedule (fun jobs => NoDup (map job_transactionHash jobs)));
      try assumption.
    + constructor.
    + intros h jobs. apply NoDup_fmap_sublist, sublist_filter.
    + apply jobs_insert_hashes.
    + intros n jobs. apply NoDup_fmap_sublist, sublist_drop.
Qed.

Lemma unlock_schedule_sorted_witness :
  let s := run [ (example_env, call_transactionUpdated 101 64);
                 (example_env, call_transactionUpdated 101 63);
                 (example_env, call_synchronizationProgressUpdated 7) ] example_wallet in
  jobs_sorted (m_unlockTransactionsJob s) /\
  NoDup (map job_transactionHash (m_unlockTransactionsJob s)).
Proof.
  apply (unlock_schedule_sorted _ example_wallet).
  - vm_compute. repeat constructor.
  - vm_compute. apply NoDup_singleton.
Defined.

(** ** The wallet before [initialize] and after [shutdown] *)

(** On a wallet that is not initialized a call does nothing, unless it is
    [initialize], [start] or [stop]. *)
Lemma exec_uninitialized (env : Env) (c : call) (s : WalletGreen) :
  m_state s = WalletState.NOT_INITIALIZED ->
  exec env c s = s \/
  m_state (exec env c s) = WalletState.INITIALIZED \/
  exists b, exec env c s = set_stopped b s.
Proof.
  intros Hst.
  assert (Hne : m_state s <> WalletState.INITIALIZED) by (rewrite Hst; discriminate).
  destruct c; simpl;
    try (left;
         unfold shutdown, save, changePassword, getAddressCount, getAddress,
           createAddress, createAddress_key, deleteAddress, getActualBalance,
           getActualBalance_address, getPendingBalance, getPendingBalance_address,
           getTransactionCount, transfer, transfer_from, getEvent,
           onSynchronizationProgressUpdated, transactionUpdated, transactionDeleted;
         run_M; first [rewrite decide_False by exact Hne | rewrite decide_True by exact Hst];
         reflexivity).
  - unfold initialize. run_M. rewrite Hst.
    rewrite bool_decide_eq_false_2 by (intros H; apply H; reflexivity).
    destruct (m_stopped s); simpl; [left; reflexivity|right; left; reflexivity].
  - right. right. exists false. reflexivity.
  - right. right. exists true. reflexivity.
Qed.

(** No call but [shutdown] takes an initialized wallet out of that state. *)
Lemma exec_keeps_initialized (env : Env) (c : call) (s : WalletGreen) :
  c <> call_shutdown ->
  m_state s = WalletState.INITIALIZED ->
  m_state (exec env c s) = WalletState.INITIALIZED.
Proof.
  intros Hc.
  set (P := fun s => m_state s = WalletState.INITIALIZED).
  change (P s -> P (exec env c s)).
  assert (HU : forall env c s, P s -> P (updateBalance env c s)).
  { intros env' c' s' Hs'. unfold P.
    pose proof (updateBalance_frame env' c' s') as (-> & _). exact Hs'. }
  intros Hs.
  destruct c; simpl; try exact Hs; try contradiction.
  all: try (as_preserves;
         unfold initialize, save, changePassword, getAddressCount, getAddress,
           createAddress, createAddress_key, deleteAddress, getActualBalance,
           getActualBalance_address, getPendingBalance, getPendingBalance_address,
           getTransactionCount, transfer, transfer_from, getEvent,
           doTransfer, doTransfer_assemble, doTransfer_build, doTransfer_commit,
           requestMixinOuts, sendTransaction, insertOutgoingTransaction,
           updateUsedWalletsBalances, updateBalance_at;
         preserves_auto).
  - reflexivity.
  - unfold onSynchronizationProgressUpdated. case_decide as Hd; [exact Hs|]. clear Hd.
    unfold unlockBalances, P. simpl.
    generalize (take (jobs_upper_bound current (m_unlockTransactionsJob s))
                  (m_unlockTransactionsJob s)) as due.
    intros due. revert s Hs. induction due as [|j due IH]; intros s Hs; simpl; [exact Hs|].
    apply IH, HU, Hs.
  - intros s0 Hs0. unfold transactionUpdated.
    destruct (decide (m_state s0 = WalletState.NOT_INITIALIZED)) as [_|_]; [exact Hs0|].
    revert s0 Hs0. fold (preserves P (transactionUpdated_initialized env c transactionHash)).
    unfold transactionUpdated_initialized, transactionUpdated_ledger,
      updateTransactionHeight, getTransactionId, insertIncomingTransaction.
    preserves_auto; auto.
    unfold transactionUpdated_unlock. case_decide; assumption.
  - unfold transactionDeleted. case_decide; [exact Hs|].
    destruct (find_transaction transactionHash (m_transactions s)) as [[id ?]|]; [|exact Hs].
    change (P (updateBalance env c
                 (set_transactions
                    (alter (fun tx =>
                         with_blockHeight (WALLET_UNCONFIRMED_TRANSACTION_HEIGHT env)
                           (with_state WalletTransactionState.CANCELLED tx))
                       id (m_transactions s))
                    (deleteSpentOutputs transactionHash
                       (set_change (delete transactionHash (m_change s))
                          (deleteUnlockTransactionJob transactionHash s)))))).
    apply HU. exact Hs.
Qed.

(** X3: in every history of a wallet, from its construction on, a wallet
    that is not initialized holds nothing: the registry, the spent-output
    table, the unlock schedule, the ledger, the transfers, the change ledger
    and the event queue are empty and both aggregate balances are zero.
    Every operation that writes them is refused before [initialize], and
    [shutdown] clears them. *)
Theorem not_initialized_is_empty (env0 : Env) (history : list (Env * call)) :
  let s := run history (WalletGreen_new env0) in
  m_state s = WalletState.NOT_INITIALIZED ->
  m_walletsContainer s = [] /\ m_spentOutputs s = [] /\ m_unlockTransactionsJob s = [] /\
  m_transactions s = [] /\ m_transfers s = [] /\ m_change s = ∅ /\
  m_actualBalance s = 0 /\ m_pendingBalance s = 0 /\ m_events s = [].
Proof.
  set (I := fun s =>
    m_state s = WalletState.NOT_INITIALIZED ->
    m_walletsContainer s = [] /\ m_spentOutputs s = [] /\ m_unlockTransactionsJob s = [] /\
    m_transactions s = [] /\ m_transfers s = [] /\ m_change s = ∅ /\
    m_actualBalance s = 0 /\ m_pendingBalance s = 0 /\ m_events s = []).
  change (I (run history (WalletGreen_new env0))).
  assert (Hnew : I (WalletGreen_new env0)) by (intros _; repeat split).
  revert Hnew. generalize (WalletGreen_new env0) as s. unfold run.
  induction history as [|[env c] history IH]; intros s Hs; simpl; [exact Hs|].
  apply IH. clear IH. intros Hafter.
  destruct (m_state s) eqn:Hst.
  - destruct (exec_uninitialized env c s Hst) as [Heq|[Hinit|[b Hb]]].
    + rewrite Heq. apply Hs, Hst.
    + rewrite Hinit in Hafter. discriminate Hafter.
    + rewrite Hb. apply Hs, Hst.
  - assert (Hdec : c = call_shutdown \/ c <> call_shutdown)
      by (destruct c; first [left; reflexivity | right; discriminate]).
    destruct Hdec as [->|Hc].
    + simpl. unfold shutdown. run_M. rewrite decide_True by exact Hst.
      repeat split.
    + rewrite (exec_keeps_initialized env c s Hc Hst) in Hafter. discriminate Hafter.
Qed.

Lemma not_initialized_is_empty_witness :
  m_transactions
    (run [ (example_env, call_initialize "secret");
           (example_env, call_createAddress_key (mkKeyPair 1 11));
           (example_env, call_transactionUpdated 101 60);
           (example_env, call_shutdown) ] (WalletGreen_new example_env)) = [] /\
  m_events
    (run [ (example_env, call_initialize "secret");
           (example_env, call_createAddress_key (mkKeyPair 1 11));
           (example_env, call_transactionUpdated 101 60);
           (example_env, call_shutdown) ] (WalletGreen_new example_env)) = [].
Proof.
  pose proof (not_initialized_is_empty example_env
                [ (example_env, call_initialize "secret");
                  (example_env, call_createAddress_key (mkKeyPair 1 11));
                  (example_env, call_transactionUpdated 101 60);
                  (example_env, call_shutdown) ]) as H.
  cbv zeta in H.
  destruct H as (_ & _ & _ & Htx & _ & _ & _ & _ & Hev).
  - vm_compute. reflexivity.
  - split; [exact Htx|exact Hev].
Defined.

(** X4: before [initialize] every public operation but [initialize],
    [start] and [stop] throws NOT_INITIALIZED and leaves the object as it
    is, and the three callbacks of the synchronizer return without touching
    it. *)
Theorem not_initialized_rejected (env : Env) (s : WalletGreen) :
  m_state s = WalletState.NOT_INITIALIZED ->
  let refused {A : Type} (m : M A) := m s = (Throw error.NOT_INITIALIZED, s) in
  refused shutdown /\ refused save /\
  (forall o n, refused (changePassword o n)) /\
  refused getAddressCount /\
  (forall i, refused (getAddress env i)) /\
  refused (createAddress env) /\
  (forall k, refused (createAddress_key env k)) /\
  (forall a, refused (deleteAddress env a)) /\
  refused getActualBalance /\
  (forall a, refused (getActualBalance_address env a)) /\
  refused getPendingBalance /\
  (forall a, refused (getPendingBalance_address env a)) /\
  refused getTransactionCount /\
  (forall d f m e u, refused (transfer env d f m e u)) /\
  (forall a d f m e u, refused (transfer_from env a d f m e u)) /\
  refused getEvent /\
  (forall h, onSynchronizationProgressUpdated env h s = s) /\
  (forall c h, transactionUpdated env c h s = (Ok tt, s)) /\
  (forall c h, transactionDeleted env c h s = s).
Proof.
  intros Hst refused.
  assert (Hne : m_state s <> WalletState.INITIALIZED) by (rewrite Hst; discriminate).
  unfold refused.
  repeat match goal with |- _ /\ _ => split end; intros;
    unfold shutdown, save, changePassword, getAddressCount, getAddress,
      createAddress, createAddress_key, deleteAddress, getActualBalance,
      getActualBalance_address, getPendingBalance, getPendingBalance_address,
      getTransactionCount, transfer, transfer_from, getEvent,
      onSynchronizationProgressUpdated, transactionUpdated, transactionDeleted;
    run_M; first [rewrite decide_False by exact Hne | rewrite decide_True by exact Hst];
    reflexivity.
Qed.

Lemma not_initialized_rejected_witness :
  transfer example_env [mkWalletTransfer "B" 600] 10 0 EmptyString 0
    (WalletGreen_new example_env)
  = (Throw error.NOT_INITIALIZED, WalletGreen_new example_env).
Proof.
  pose proof (not_initialized_rejected example_env (WalletGreen_new example_env) eq_refl)
    as H.
  cbv zeta in H.
  destruct H as (_ & _ & _ & _ & _ & _ & _ & _ & _ & _ & _ & _ & _ & H & _).
  apply H.
Defined.

(** X5: on an initialized wallet that was stopped, every public operation
    that waits on the dispatcher throws OPERATION_CANCELLED and leaves the
    object as it is; [initialize] reports ALREADY_INITIALIZED first. *)
Theorem stopped_rejected (env : Env) (s : WalletGreen) :
  m_state s = WalletState.INITIALIZED ->
  m_stopped s = true ->
  let refused {A : Type} (m : M A) := m s = (Throw error.OPERATION_CANCELLED, s) in
  refused save /\
  (forall o n, refused (changePassword o n)) /\
  refused getAddressCount /\
  (forall i, refused (getAddress env i)) /\
  refused (createAddress env) /\
  (forall k, refused (createAddress_key env k)) /\
  (forall a, refused (deleteAddress env a)) /\
  refused getActualBalance /\
  (forall a, refused (getActualBalance_address env a)) /\
  refused getPendingBalance /\
  (forall a, refused (getPendingBalance_address env a)) /\
  refused getTransactionCount /\
  (forall d f m e u, refused (transfer env d f m e u)) /\
  (forall a d f m e u, refused (transfer_from env a d f m e u)) /\
  refused getEvent /\
  (forall p, initialize env p s = (Throw error.ALREADY_INITIALIZED, s)).
Proof.
  intros Hst Hstop refused. unfold refused.
  repeat match goal with |- _ /\ _ => split end; intros;
    unfold initialize, save, changePassword, getAddressCount, getAddress,
      createAddress, createAddress_key, deleteAddress, getActualBalance,
      getActualBalance_address, getPendingBalance, getPendingBalance_address,
      getTransactionCount, transfer, transfer_from, getEvent;
    run_M; rewrite ?Hst; rewrite ?decide_True by reflexivity; cbn beta iota;
    rewrite ?Hstop; reflexivity.
Qed.

Lemma stopped_rejected_witness :
  getEvent (stop example_wallet) = (Throw error.OPERATION_CANCELLED, stop example_wallet).
Proof.
  pose proof (stopped_rejected example_env (stop example_wallet) eq_refl eq_refl) as H.
  cbv zeta in H.
  destruct H as (_ & _ & _ & _ & _ & _ & _ & _ & _ & _ & _ & _ & _ & _ & H & _).
  apply H.
Defined.

(** ** What the selection finds *)

Lemma sumZ_Permutation (l k : list Z) : l ≡ₚ k -> sumZ l = sumZ k.
Proof. induction 1; simpl; lia. Qed.

Lemma sumZ_submseteq (l k : list Z) :
  l ⊆+ k -> Forall (fun x => 0 <= x) k -> sumZ l <= sumZ k.
Proof.
  intros [k' Hk]%submseteq_Permutation Hpos.
  rewrite (sumZ_Permutation _ _ Hk), sumZ_app.
  assert (0 <= sumZ k'); [|lia].
  apply sumZ_nonneg. apply Forall_forall. intros x Hx.
  rewrite Forall_forall in Hpos. apply Hpos. rewrite Hk. apply elem_of_app. right. exact Hx.
Qed.

Lemma sum64_snoc (l : list Z) (x : Z) : sum64 (l ++ [x]) = add64 (sum64 l) x.
Proof. unfold sum64. rewrite fold_left_app. reflexivity. Qed.

(** What a pass of the loop keeps: [foundMoney] is the 64-bit sum of the
    selected amounts, and every output offered at entry is selected, or in
    the spent-output table, or dust, or still on offer. *)
Lemma select_step_exhaustive (env : Env) (s : WalletGreen) (dustThreshold : Z)
    (all : list OutputToTransfer) (st st' : SelectState) :
  let P := fun st =>
    sel_foundMoney st =
      sum64 (map (fun o => out_amount (out o)) (sel_selectedTransfers st)) /\
    forall o, o ∈ all ->
      o ∈ sel_selectedTransfers st \/ isOutputUsed (out o) s = true \/
      out_amount (out o) <= dustThreshold \/ o ∈ offered (sel_walletOuts st) in
  P st -> select_step env s dustThreshold st = Some st' -> P st'.
Proof.
  intros P [Hsum Hall]. unfold select_step.
  destruct (sel_walletOuts st !! _) as [wo|] eqn:Hwo; [|discriminate].
  destruct (outs wo !! _) as [o|] eqn:Ho; [|discriminate].
  intros [= <-]. unfold P. cbn [sel_selectedTransfers sel_walletOuts sel_foundMoney].
  pose proof (offered_step _ _ _ _ _ Hwo Ho) as Hperm.
  set (wos' := match delete _ (outs wo) with [] => _ | _ => _ end) in *.
  assert (Hrest : forall x, x ∈ offered (sel_walletOuts st) ->
                    x = mkOutputToTransfer o (wallet wo) \/ x ∈ offered wos').
  { intros x Hx. rewrite Hperm in Hx. apply elem_of_cons in Hx. exact Hx. }
  destruct (isOutputUsed o s) eqn:Hused; cbn [negb andb].
  - split; [exact Hsum|]. intros x Hx.
    destruct (Hall x Hx) as [H1|[H1|[H1|H1]]]; [tauto..|].
    destruct (Hrest x H1) as [->|H2]; [|tauto]. right. left. exact Hused.
  - destruct (bool_decide (dustThreshold < out_amount o)) eqn:Hbig; cbn [orb].
    + split.
      * rewrite map_app. cbn [map]. rewrite sum64_snoc, <- Hsum. reflexivity.
      * intros x Hx. destruct (Hall x Hx) as [H1|[H1|[H1|H1]]]; [|tauto..|].
        -- left. apply elem_of_app. left. exact H1.
        -- destruct (Hrest x H1) as [->|H2]; [|tauto].
           left. apply elem_of_app. right. apply list_elem_of_singleton. reflexivity.
    + apply bool_decide_eq_false in Hbig.
      destruct (sel_dust st).
      * split.
        -- rewrite map_app. cbn [map]. rewrite sum64_snoc, <- Hsum. reflexivity.
        -- intros x Hx. destruct (Hall x Hx) as [H1|[H1|[H1|H1]]]; [|tauto..|].
           ++ left. apply elem_of_app. left. exact H1.
           ++ destruct (Hrest x H1) as [->|H2]; [|tauto].
              left. apply elem_of_app. right. apply list_elem_of_singleton. reflexivity.
      * split; [exact Hsum|]. intros x Hx.
        destruct (Hall x Hx) as [H1|[H1|[H1|H1]]]; [tauto..|].
        destruct (Hrest x H1) as [->|H2]; [|tauto]. right. right. left. simpl. lia.
Qed.

(** The loop ends with enough money or with nothing left on offer. *)
Lemma select_loop_exit (env : Env) (s : WalletGreen) (neededMoney dustThreshold : Z)
    (fuel : nat) (st st' : SelectState) :
  select_loop env s neededMoney dustThreshold fuel st = Selected st' ->
  sel_foundMoney st' < neededMoney -> sel_walletOuts st' = [].
Proof.
  assert (Hexit : forall x,
            bool_decide (sel_foundMoney x < neededMoney) &&
            bool_decide (sel_walletOuts x <> []) = false ->
            sel_foundMoney x < neededMoney -> sel_walletOuts x = []).
  { intros x Hcond Hless.
    rewrite (bool_decide_eq_true_2 _ Hless) in Hcond. simpl in Hcond.
    apply bool_decide_eq_false in Hcond.
    destruct (sel_walletOuts x); [reflexivity|]. exfalso. apply Hcond. discriminate. }
  revert st. induction fuel as [|fuel IH]; intros st; simpl.
  - destruct (_ && _) eqn:Hcond; [discriminate|].
    intros [= <-]. apply Hexit, Hcond.
  - destruct (_ && _) eqn:Hcond.
    + destruct (select_step env s dustThreshold st) as [st1|]; [|discriminate].
      apply IH.
    + intros [= <-]. apply Hexit, Hcond.
Qed.

(** X6: what [selectTransfers] returns, when the amounts on offer are
    non-negative and their sum fits 64 bits: the selected outputs are among
    the outputs offered, each taken at most once; none of them is in the
    spent-output table; [foundMoney] is the exact sum of their amounts; and
    when [foundMoney] is below [neededMoney], every output offered was
    selected, or is in the spent-output table, or is dust. *)
Theorem selectTransfers_sound (env : Env) (s : WalletGreen) (neededMoney : Z) (dust : bool)
    (dustThreshold : Z) (wallets : list WalletOuts) (st : SelectState) :
  Forall (fun o => 0 <= out_amount (out o)) (offered wallets) ->
  sumZ (map (fun o => out_amount (out o)) (offered wallets)) < 2 ^ 64 ->
  selectTransfers env s neededMoney dust dustThreshold wallets [] = Selected st ->
  sel_selectedTransfers st ⊆+ offered wallets /\
  Forall (fun o => isOutputUsed (out o) s = false) (sel_selectedTransfers st) /\
  sel_foundMoney st = sumZ (map (fun o => out_amount (out o)) (sel_selectedTransfers st)) /\
  (sel_foundMoney st < neededMoney ->
   forall o, o ∈ offered wallets ->
     o ∈ sel_selectedTransfers st \/ isOutputUsed (out o) s = true \/
     out_amount (out o) <= dustThreshold).
Proof.
  intros Hpos Htotal Hselect.
  destruct (selectTransfers_offered _ _ _ _ _ _ _ Hselect) as (Hsub & Hunused & _).
  assert (Hexact : forall sel : list OutputToTransfer, sel ⊆+ offered wallets ->
            sum64 (map (fun o => out_amount (out o)) sel) =
            sumZ (map (fun o => out_amount (out o)) sel)).
  { intros sel Hsel. rewrite sum64_wrap. apply wrap64_small.
    assert (Hsubm : map (fun o => out_amount (out o)) sel ⊆+
                    map (fun o => out_amount (out o)) (offered wallets))
      by exact (fmap_submseteq (fun o => out_amount (out o)) _ _ Hsel).
    assert (Hposm : Forall (fun x => 0 <= x)
                      (map (fun o => out_amount (out o)) (offered wallets)))
      by (apply Forall_fmap; exact Hpos).
    split.
    - apply sumZ_nonneg. apply Forall_forall. intros x Hx.
      rewrite Forall_forall in Hposm. apply Hposm.
      eapply elem_of_submseteq; [exact Hx|exact Hsubm].
    - pose proof (sumZ_submseteq _ _ Hsubm Hposm). lia. }
  split; [exact Hsub|]. split; [exact Hunused|].
  unfold selectTransfers in Hselect.
  destruct (select_loop _ _ _ _ _ _) as [st1| |] eqn:Hloop; try discriminate.
  assert (HP :
    sel_foundMoney st1 =
      sum64 (map (fun o => out_amount (out o)) (sel_selectedTransfers st1)) /\
    forall o, o ∈ offered wallets ->
      o ∈ sel_selectedTransfers st1 \/ isOutputUsed (out o) s = true \/
      out_amount (out o) <= dustThreshold \/ o ∈ offered (sel_walletOuts st1)).
  { eapply (select_loop_invariant _ env s neededMoney dustThreshold
              (select_step_exhaustive env s dustThreshold (offered wallets)));
      [|exact Hloop].
    simpl. split; [reflexivity|]. intros o Ho. tauto. }
  destruct HP as [Hsum Hall].
  pose proof (select_loop_exit _ _ _ _ _ _ _ Hloop) as Hexit.
  assert (Hdone : st = st1 \/
            exists it, dust_sweep s dustThreshold (sel_walletOuts st1) = Some it /\
              st = mkSelectState (add64 (sel_foundMoney st1) (out_amount (out it)))
                     (sel_dust st1) (sel_walletOuts st1)
                     (sel_selectedTransfers st1 ++ [it]) (sel_draws st1)).
  { destruct (negb (sel_dust st1)); [left; congruence|].
    destruct (dust_sweep s dustThreshold (sel_walletOuts st1)) as [it|];
      [right; exists it; split; congruence|left; congruence]. }
  destruct Hdone as [->|(it & Hsweep & ->)].
  - split; [rewrite Hsum; apply Hexact, Hsub|].
    intros Hless o Ho. destruct (Hall o Ho) as [H1|[H1|[H1|H1]]]; [tauto..|].
    rewrite (Hexit Hless) in H1. apply elem_of_nil in H1. contradiction.
  - cbn [sel_selectedTransfers sel_foundMoney] in *.
    assert (Hfound : add64 (sel_foundMoney st1) (out_amount (out it)) =
              sumZ (map (fun o => out_amount (out o)) (sel_selectedTransfers st1 ++ [it]))).
    { rewrite <- (Hexact _ Hsub), map_app. cbn [map]. rewrite sum64_snoc, Hsum. reflexivity. }
    split; [exact Hfound|].
    intros Hless o Ho. exfalso.
    assert (Hne : sel_walletOuts st1 <> []).
    { intros Hnil. rewrite Hnil in Hsweep. discriminate Hsweep. }
    assert (Hge : ~ sel_foundMoney st1 < neededMoney).
    { intros Hlt. apply Hne, Hexit, Hlt. }
    assert (Hsub1 : sel_selectedTransfers st1 ⊆+ offered wallets).
    { etrans; [|exact Hsub]. apply submseteq_inserts_r. reflexivity. }
    rewrite Hfound, map_app, sumZ_app in Hless. rewrite Hsum, (Hexact _ Hsub1) in Hge.
    simpl in Hless.
    assert (0 <= out_amount (out it)); [|lia].
    rewrite Forall_forall in Hpos. apply Hpos.
    eapply elem_of_submseteq; [|exact Hsub]. apply elem_of_app. right.
    apply list_elem_of_singleton. reflexivity.
Qed.

Lemma selectTransfers_sound_witness :
  let st :=
    mkSelectState 1000 false []
      [mkOutputToTransfer (mkTransactionOutputInformation 1000 0 0 60 61 62) 0] 2 in
  selectTransfers example_env example_wallet 610 true DUST_THRESHOLD
    (pickWalletsWithMoney example_env example_wallet) [] = Selected st /\
  sel_selectedTransfers st ⊆+ offered (pickWalletsWithMoney example_env example_wallet).
Proof.
  assert (Hsel : selectTransfers example_env example_wallet 610 true DUST_THRESHOLD
                   (pickWalletsWithMoney example_env example_wallet) [] =
                 Selected (mkSelectState 1000 false []
                   [mkOutputToTransfer (mkTransactionOutputInformation 1000 0 0 60 61 62) 0]
                   2))
    by (vm_compute; reflexivity).
  split; [exact Hsel|].
  destruct (selectTransfers_sound example_env example_wallet 610 true DUST_THRESHOLD
              (pickWalletsWithMoney example_env example_wallet)
              (mkSelectState 1000 false []
                 [mkOutputToTransfer (mkTransactionOutputInformation 1000 0 0 60 61 62) 0]
                 2)) as (Hsub & _).
  - vm_compute. repeat constructor; discriminate.
  - vm_compute. reflexivity.
  - exact Hsel.
  - exact Hsub.
Defined.

(** ** Transfers that are refused *)

Lemma transfer_from_running (env : Env) (sourceAddress : string)
    (destinations : list WalletTransfer) (fee mixIn : Z) (extra : string)
    (unlockTimestamp : Z) (s : WalletGreen) (w : WalletRecord) :
  m_state s = WalletState.INITIALIZED -> m_stopped s = false ->
  getWalletRecord_address env sourceAddress s = Ok w ->
  transfer_from env sourceAddress destinations fee mixIn extra unlockTimestamp s =
    doTransfer env
      (if decide (container_getOutputs env (container w) = []) then []
       else [mkWalletOuts (self w) (container_getOutputs env (container w))])
      destinations fee mixIn extra unlockTimestamp s.
Proof.
  intros Hinit Hrun Hw. unfold transfer_from, pickWallet. run_M.
  rewrite decide_True by exact Hinit. rewrite Hrun, Hw. reflexivity.
Qed.

Lemma doTransfer_rejected (env : Env) (wallets : list WalletOuts)
    (destinations : list WalletTransfer) (fee mixIn : Z) (extra : string)
    (unlockTimestamp : Z) (s : WalletGreen) (e : error.t) :
  (doTransfer_assemble env wallets destinations fee mixIn extra unlockTimestamp s).1
    = Throw e ->
  doTransfer env wallets destinations fee mixIn extra unlockTimestamp s = (Throw e, s).
Proof.
  intros Ha. unfold doTransfer. unfold mbind at 1, M_bind at 1.
  pose proof (doTransfer_assemble_read_only env wallets destinations fee mixIn extra
                unlockTimestamp s) as Hs.
  destruct (doTransfer_assemble env wallets destinations fee mixIn extra unlockTimestamp s)
    as [[a'|e'] s']; simpl in *; [discriminate Ha|].
  congruence.
Qed.

(** X7: a transfer that fails before the pre-commit record is written,
    whatever the error (an argument that does not validate, not enough
    money, too few mix-ins, an error of the node or of the transaction
    builder), throws that error and leaves the object exactly as it was.
    This holds for both overloads of [transfer]. *)
Theorem transfer_rejected_unchanged (env : Env) (destinations : list WalletTransfer)
    (fee mixIn : Z) (extra : string) (unlockTimestamp : Z) (s : WalletGreen) (e : error.t) :
  m_state s = WalletState.INITIALIZED ->
  m_stopped s = false ->
  ((doTransfer_assemble env (pickWalletsWithMoney env s) destinations fee mixIn extra
      unlockTimestamp s).1 = Throw e ->
   transfer env destinations fee mixIn extra unlockTimestamp s = (Throw e, s)) /\
  (forall sourceAddress w,
     pickWallet env sourceAddress s = Ok w ->
     (doTransfer_assemble env (if decide (outs w = []) then [] else [w]) destinations fee
        mixIn extra unlockTimestamp s).1 = Throw e ->
     transfer_from env sourceAddress destinations fee mixIn extra unlockTimestamp s
       = (Throw e, s)) /\
  (forall sourceAddress e',
     pickWallet env sourceAddress s = Throw e' ->
     transfer_from env sourceAddress destinations fee mixIn extra unlockTimestamp s
       = (Throw e', s)).
Proof.
  intros Hinit Hrun. split; [|split].
  - intros Ha. rewrite transfer_running by assumption. apply doTransfer_rejected, Ha.
  - intros sourceAddress w Hw Ha. unfold transfer_from. run_M.
    rewrite decide_True by exact Hinit. rewrite Hrun, Hw.
    apply doTransfer_rejected, Ha.
  - intros sourceAddress e' Hw. unfold transfer_from. run_M.
    rewrite decide_True by exact Hinit. rewrite Hrun, Hw. reflexivity.
Qed.

Lemma transfer_rejected_unchanged_witness :
  transfer example_env [mkWalletTransfer "B" 2000] 10 0 EmptyString 0 example_wallet
    = (Throw error.WRONG_AMOUNT, example_wallet) /\
  transfer_from example_env "Q" [mkWalletTransfer "B" 600] 10 0 EmptyString 0 example_wallet
    = (Throw error.INVALID_ARGUMENT, example_wallet).
Proof.
  destruct (transfer_rejected_unchanged example_env [mkWalletTransfer "B" 2000] 10 0
              EmptyString 0 example_wallet error.WRONG_AMOUNT eq_refl eq_refl)
    as (H1 & _ & _).
  destruct (transfer_rejected_unchanged example_env [mkWalletTransfer "B" 600] 10 0
              EmptyString 0 example_wallet error.WRONG_AMOUNT eq_refl eq_refl)
    as (_ & _ & H3).
  split.
  - apply H1. vm_compute. reflexivity.
  - apply H3. vm_compute. reflexivity.
Defined.

(** [foundMoney] is the 64-bit sum of the selected amounts. *)
Lemma selectTransfers_found (env : Env) (s : WalletGreen) (neededMoney : Z) (dust : bool)
    (dustThreshold : Z) (wallets : list WalletOuts) (st : SelectState) :
  selectTransfers env s neededMoney dust dustThreshold wallets [] = Selected st ->
  sel_foundMoney st = sum64 (map (fun o => out_amount (out o)) (sel_selectedTransfers st)).
Proof.
  unfold selectTransfers.
  destruct (select_loop _ _ _ _ _ _) as [st1| |] eqn:Hloop; try discriminate.
  assert (HP :
    sel_foundMoney st1 =
      sum64 (map (fun o => out_amount (out o)) (sel_selectedTransfers st1)) /\
    forall o, o ∈ offered wallets ->
      o ∈ sel_selectedTransfers st1 \/ isOutputUsed (out o) s = true \/
      out_amount (out o) <= dustThreshold \/ o ∈ offered (sel_walletOuts st1)).
  { eapply (select_loop_invariant _ env s neededMoney dustThreshold
              (select_step_exhaustive env s dustThreshold (offered wallets)));
      [|exact Hloop].
    simpl. split; [reflexivity|]. intros o Ho. tauto. }
  destruct HP as [Hsum _].
  destruct (negb (sel_dust st1)); [intros [= <-]; exact Hsum|].
  destruct (dust_sweep s dustThreshold (sel_walletOuts st1)) as [it|];
    intros [= <-]; [|exact Hsum].
  cbn [sel_selectedTransfers sel_foundMoney].
  rewrite map_app. cbn [map]. rewrite sum64_snoc, Hsum. reflexivity.
Qed.

(** With an output in every wallet of the working set, the selection
    returns. *)
Lemma selectTransfers_returns (env : Env) (s : WalletGreen) (neededMoney : Z) (dust : bool)
    (dustThreshold : Z) (wallets : list WalletOuts) :
  Forall (fun wo => outs wo <> []) wallets ->
  exists st, selectTransfers env s neededMoney dust dustThreshold wallets [] = Selected st.
Proof.
  intros Hall. unfold selectTransfers.
  set (st0 := mkSelectState 0 dust wallets [] O).
  destruct (select_loop_terminates env s neededMoney dustThreshold
              (S (total_outs wallets)) st0) as [Hfuel Hassert]; [simpl; lia|].
  destruct (select_loop env s neededMoney dustThreshold (S (total_outs wallets)) st0)
    as [st| |] eqn:Hloop.
  - destruct (negb (sel_dust st)); [eexists; reflexivity|].
    destruct (dust_sweep s dustThreshold (sel_walletOuts st)); eexists; reflexivity.
  - exfalso. apply Hassert; [exact Hall|reflexivity].
  - exfalso. apply Hfuel. reflexivity.
Qed.

Lemma validateAddresses_Exists (env : Env) (destinations : list WalletTransfer) :
  Exists (fun d => validateAddress env (address d) = false) destinations ->
  validateAddresses env destinations = Throw error.BAD_ADDRESS.
Proof.
  induction 1 as [d l Hd|d l _ IH]; simpl.
  - rewrite Hd. reflexivity.
  - rewrite IH. destruct (validateAddress env (address d)); reflexivity.
Qed.

(** X8: the typed errors of a transfer on an initialized, running wallet,
    each leaving the object as it was.  An empty destination list is
    ZERO_DESTINATION.  A destination whose address does not parse is
    BAD_ADDRESS, whatever the amounts and the fee.  When the arguments
    validate, every offered wallet has an output, and the amounts on offer
    (non-negative) sum to less than the destinations plus the fee, the
    error is WRONG_AMOUNT. *)
Theorem transfer_typed_errors (env : Env) (destinations : list WalletTransfer)
    (fee mixIn : Z) (extra : string) (unlockTimestamp : Z) (s : WalletGreen) :
  m_state s = WalletState.INITIALIZED ->
  m_stopped s = false ->
  let r := transfer env destinations fee mixIn extra unlockTimestamp s in
  (destinations = [] -> r = (Throw error.ZERO_DESTINATION, s)) /\
  (destinations <> [] ->
   Exists (fun d => validateAddress env (address d) = false) destinations ->
   r = (Throw error.BAD_ADDRESS, s)) /\
  (forall neededMoney,
     doTransfer_validate env destinations fee = Ok neededMoney ->
     Forall (fun wo => outs wo <> []) (pickWalletsWithMoney env s) ->
     Forall (fun o => 0 <= out_amount (out o)) (offered (pickWalletsWithMoney env s)) ->
     sumZ (map (fun o => out_amount (out o)) (offered (pickWalletsWithMoney env s)))
       < neededMoney ->
     r = (Throw error.WRONG_AMOUNT, s)).
Proof.
  intros Hinit Hrun r. subst r. rewrite transfer_running by assumption.
  split; [|split].
  - intros ->. reflexivity.
  - intros Hne Hbad. apply doTransfer_rejected.
    unfold doTransfer_assemble, doTransfer_validate. run_M.
    rewrite decide_False by exact Hne.
    rewrite (validateAddresses_Exists env destinations Hbad). reflexivity.
  - intros needed Hval Hall Hpos Hless. apply doTransfer_rejected.
    unfold doTransfer_assemble, doTransfer_build. run_M. rewrite Hval.
    destruct (selectTransfers_returns env s needed (bool_decide (mixIn = 0)) DUST_THRESHOLD
                _ Hall) as [st Hst].
    rewrite Hst.
    destruct (selectTransfers_offered _ _ _ _ _ _ _ Hst) as (Hsub & _ & _).
    pose proof (selectTransfers_found _ _ _ _ _ _ _ Hst) as Hfound.
    pose proof (doTransfer_validate_range _ _ _ _ Hval) as Hneeded.
    assert (Hsubm : map (fun o => out_amount (out o)) (sel_selectedTransfers st) ⊆+
                    map (fun o => out_amount (out o)) (offered (pickWalletsWithMoney env s)))
      by exact (fmap_submseteq (fun o => out_amount (out o)) _ _ Hsub).
    assert (Hposm : Forall (fun x => 0 <= x)
                      (map (fun o => out_amount (out o))
                         (offered (pickWalletsWithMoney env s))))
      by (apply Forall_fmap; exact Hpos).
    pose proof (sumZ_submseteq _ _ Hsubm Hposm) as Hle.
    assert (Hnn : 0 <= sumZ (map (fun o => out_amount (out o)) (sel_selectedTransfers st))).
    { apply sumZ_nonneg. apply Forall_forall. intros x Hx.
      rewrite Forall_forall in Hposm. apply Hposm.
      eapply elem_of_submseteq; [exact Hx|exact Hsubm]. }
    rewrite sum64_wrap, wrap64_small in Hfound by lia.
    rewrite bool_decide_eq_true_2 by lia. reflexivity.
Qed.

Lemma transfer_typed_errors_witness :
  transfer example_env [] 10 0 EmptyString 0 example_wallet
    = (Throw error.ZERO_DESTINATION, example_wallet) /\
  transfer example_env [mkWalletTransfer "B" 5; mkWalletTransfer "Q" 0] 10 0 EmptyString 0
    example_wallet = (Throw error.BAD_ADDRESS, example_wallet) /\
  transfer example_env [mkWalletTransfer "B" 995] 10 0 EmptyString 0 example_wallet
    = (Throw error.WRONG_AMOUNT, example_wallet).
Proof.
  split; [|split].
  - apply (transfer_typed_errors example_env [] 10 0 EmptyString 0 example_wallet);
      reflexivity.
  - apply (transfer_typed_errors example_env
             [mkWalletTransfer "B" 5; mkWalletTransfer "Q" 0] 10 0 EmptyString 0
             example_wallet); try reflexivity.
    + discriminate.
    + apply Exists_cons_tl, Exists_cons_hd. reflexivity.
  - apply (proj2 (proj2 (transfer_typed_errors example_env [mkWalletTransfer "B" 995] 10 0
                          EmptyString 0 example_wallet eq_refl eq_refl)) 1005).
    + reflexivity.
    + vm_compute. repeat constructor; discriminate.
    + vm_compute. repeat constructor; discriminate.
    + vm_compute. reflexivity.
Defined.
